(** * Keyword-spotting trainers: binary_KWS.py and first.py

    A shallow embedding of the two training scripts.  Tensors are flat,
    row-major stores with a shape, as the framework keeps them; Python
    integers are [Z]; exceptions are an explicit [result] type; the console
    and the files written are explicit values.  Tensor code is written once
    over a [Scalar] interface and read at two instances: IEEE binary32
    ([spec_float], NaN and signed zeros included) and the reals. *)

From Stdlib Require Import ZArith List Reals Lra Lia QArith Ascii.
From Stdlib Require Import Floats.SpecFloat.
From stdpp Require Import gmap strings list sorting pretty.

(* ================================================================== *)
(** * Python run-time values *)
(* ================================================================== *)

Module Py.

Inductive exn : Type :=
| IndexError
| KeyError (key : string)
| ZeroDivisionError
| OverflowError
| RuntimeError
| ValueError
| FileNotFoundError (path : string).

Inductive result (A : Type) : Type :=
| Ok (a : A)
| Raise (e : exn).
Arguments Ok {A} a.
Arguments Raise {A} e.

Definition bind {A B} (m : result A) (k : A -> result B) : result B :=
  match m with
  | Ok a => k a
  | Raise e => Raise e
  end.

(** A [for] loop over [l] that updates [s] and may raise. *)
Fixpoint foldM {S B} (f : S -> B -> result S) (s : S) (l : list B) : result S :=
  match l with
  | [] => Ok s
  | x :: l' => bind (f s x) (fun s' => foldM f s' l')
  end.

(** [seq[i]] on a Python list: negative indices count from the end. *)
Definition getitem {A} (l : list A) (i : Z) : result A :=
  let j := if (i <? 0)%Z then (i + Z.of_nat (length l))%Z else i in
  if (j <? 0)%Z then Raise IndexError
  else match l !! Z.to_nat j with
       | Some x => Ok x
       | None => Raise IndexError
       end.

(** [seq[:k]] on a Python sequence of length [n]: how many items stay. *)
Definition slice_stop (n : nat) (k : Z) : nat :=
  if (k <? 0)%Z then Z.to_nat (Z.of_nat n + k) else Nat.min n (Z.to_nat k).

(** [s.endswith(suffix)] *)
Definition endswith (s suffix : string) : bool :=
  let n := String.length s in
  let m := String.length suffix in
  (m <=? n)%nat && String.eqb (String.substring (n - m) m s) suffix.

(** [s.startswith(prefix)] *)
Definition startswith (s pre : string) : bool := String.prefix pre s.

(** [os.path.join(a, b)] (posixpath): an absolute [b] replaces [a]. *)
Definition path_join (a b : string) : string :=
  if startswith b "/" then b
  else if String.eqb a EmptyString || endswith a "/" then a +:+ b
  else a +:+ "/" +:+ b.

(** [s.replace(old, new)] for one-character [old] and [new]. *)
Fixpoint replace_char (old new : Ascii.ascii) (s : string) : string :=
  match s with
  | EmptyString => EmptyString
  | String c s' =>
      String (if Ascii.eqb c old then new else c) (replace_char old new s')
  end.

(** [enumerate(l)] *)
Definition enumerate {A} (l : list A) : list (nat * A) :=
  imap (fun i x => (i, x)) l.

(** A directory tree as [os.path.isdir] and [os.listdir] see it: the
    paths that are directories, each with the names it lists. *)
Definition filesystem : Type := gmap string (list string).

Definition isdir (fs : filesystem) (path : string) : bool :=
  match fs !! path with Some _ => true | None => false end.

Definition listdir (fs : filesystem) (path : string) : result (list string) :=
  match fs !! path with
  | Some names => Ok names
  | None => Raise (FileNotFoundError path)
  end.

(** [sorted(l)] on strings (code-point order). *)
Definition str_le (s1 s2 : string) : Prop := String.leb s1 s2 = true.

#[global] Instance str_le_dec (s1 s2 : string) : Decision (str_le s1 s2).
Proof. unfold str_le. apply _. Defined.

Definition sorted (l : list string) : list string := merge_sort str_le l.

End Py.

Import Py.

#[global] Instance result_ret : MRet result := fun _ a => Ok a.
#[global] Instance result_bind : MBind result := fun _ _ k m => Py.bind m k.

(* ================================================================== *)
(** * Tensor elements *)
(* ================================================================== *)

(** What the scripts ask of a tensor element. *)
Class Scalar (A : Type) : Type := {
  s_zero : A;
  s_one : A;
  s_neg : A -> A;
  s_add : A -> A -> A;
  s_sub : A -> A -> A;
  s_mul : A -> A -> A;
  s_div : A -> A -> A;
  s_sqrt : A -> A;
  s_geb : A -> A -> bool;
  s_ltb : A -> A -> bool;
  s_of_Z : Z -> A
}.

(** IEEE 754 binary32, the element type of the scripts' tensors. *)
Module F32.
Definition prec : Z := 24.
Definition emax : Z := 128.
Definition t : Type := spec_float.
Definition zero : t := S754_zero false.
Definition neg_zero : t := S754_zero true.
Definition one : t := SFone prec emax.
Definition nan : t := S754_nan.
Definition neg : t -> t := SFopp.
Definition add : t -> t -> t := SFadd prec emax.
Definition sub : t -> t -> t := SFsub prec emax.
Definition mul : t -> t -> t := SFmul prec emax.
Definition div : t -> t -> t := SFdiv prec emax.
Definition sqrt : t -> t := SFsqrt prec emax.
(** [x >= y]: false as soon as one side is NaN. *)
Definition geb (x y : t) : bool := SFleb y x.
Definition ltb (x y : t) : bool := SFltb x y.
Definition of_Z (z : Z) : t := binary_normalize prec emax z 0 false.
End F32.

#[global] Instance F32_scalar : Scalar F32.t := {|
  s_zero := F32.zero; s_one := F32.one; s_neg := F32.neg;
  s_add := F32.add; s_sub := F32.sub; s_mul := F32.mul; s_div := F32.div;
  s_sqrt := F32.sqrt; s_geb := F32.geb; s_ltb := F32.ltb; s_of_Z := F32.of_Z
|}.

(** The rational a finite [spec_float] stands for, at any precision. *)
Definition float_value (x : spec_float) : Q :=
  match x with
  | S754_finite s m e =>
      let v := if (e <? 0)%Z then (Zpos m # Z.to_pos (2 ^ (- e)))
               else (Zpos m * 2 ^ e # 1) in
      if s then (- v)%Q else v
  | _ => 0%Q
  end.

(** The reals: the scripts' arithmetic with rounding left out. *)
Module Real.
Definition geb (x y : R) : bool := if Rle_dec y x then true else false.
Definition ltb (x y : R) : bool := if Rlt_dec x y then true else false.
End Real.

#[global] Instance R_scalar : Scalar R := {|
  s_zero := 0%R; s_one := 1%R; s_neg := Ropp;
  s_add := Rplus; s_sub := Rminus; s_mul := Rmult; s_div := Rdiv;
  s_sqrt := sqrt; s_geb := Real.geb; s_ltb := Real.ltb; s_of_Z := IZR
|}.

(* ================================================================== *)
(** * Tensors and the framework operations the scripts call *)
(* ================================================================== *)

Record tensor (A : Type) : Type := Tensor {
  shape : list nat;
  data : list A
}.
Arguments Tensor {A} shape data.
Arguments shape {A} t.
Arguments data {A} t.

Definition prod_list (l : list nat) : nat := foldr Nat.mul 1%nat l.

(** The store holds exactly the elements the shape announces. *)
Definition wf {A} (t : tensor A) : Prop := length (data t) = prod_list (shape t).

(** [k] consecutive rows of [n] elements. *)
Fixpoint chunks {A} (n k : nat) (l : list A) : list (list A) :=
  match k with
  | O => []
  | S k' => take n l :: chunks n k' (drop n l)
  end.

Module torch.
Section Ops.
Context {A : Type} `{Scalar A}.

(** [t.size(d)] *)
Definition size (t : tensor A) (d : nat) : result nat :=
  match shape t !! d with
  | Some n => Ok n
  | None => Raise IndexError
  end.

Definition numel (t : tensor A) : nat := prod_list (shape t).

(** [torch.ones_like(t)] *)
Definition ones_like (t : tensor A) : tensor A :=
  Tensor (shape t) ((fun _ => s_one) <$> data t).

(** [-t] *)
Definition neg (t : tensor A) : tensor A :=
  Tensor (shape t) (s_neg <$> data t).

(** [t >= c] for a Python number [c] *)
Definition ge_scalar (t : tensor A) (c : A) : tensor bool :=
  Tensor (shape t) ((fun x => s_geb x c) <$> data t).

(** [torch.where(cond, a, b)] on tensors of one shape *)
Definition where_ (cond : tensor bool) (a b : tensor A) : tensor A :=
  Tensor (shape cond)
    (zip_with (fun (c : bool) (ab : A * A) => if c then ab.1 else ab.2)
       (data cond) (zip (data a) (data b))).

(** The rows along the last dimension. *)
Definition rows (t : tensor A) : list (list A) :=
  match last (shape t) with
  | Some n => chunks n (prod_list (removelast (shape t))) (data t)
  | None => [data t]
  end.

(** Apply [f] to every row; [n'] is the new length of the last dimension. *)
Definition map_rows (f : list A -> list A) (n' : nat) (t : tensor A) : tensor A :=
  Tensor (removelast (shape t) ++ [n']) (concat (f <$> rows t)).

(** [torch.nn.functional.pad(t, (0, padding))]: zeros appended to the
    last dimension; a negative amount crops instead. *)
Definition pad_right (t : tensor A) (padding : Z) : result (tensor A) :=
  match last (shape t) with
  | None => Raise RuntimeError
  | Some n =>
      if (Z.of_nat n + padding <? 0)%Z then Raise RuntimeError
      else
        let n' := Z.to_nat (Z.of_nat n + padding) in
        Ok (map_rows
              (fun r => take n' (r ++ replicate (Z.to_nat padding) s_zero))
              n' t)
  end.

(** [t[:, :stop]] on a 2-D tensor *)
Definition slice_cols (t : tensor A) (stop : Z) : result (tensor A) :=
  match shape t with
  | [_; n] =>
      let n' := slice_stop n stop in
      Ok (map_rows (take n') n' t)
  | _ => Raise IndexError
  end.

(** A sum accumulated from left to right.  The framework's matrix product
    may associate in another order; on the products of [+1] and [-1] that the
    binarized layers add, every partial sum is a small integer and no order
    rounds. *)
Definition sum (l : list A) : A := foldl s_add s_zero l.

(** [t - c] and [t / c] for a zero-dimensional [c] *)
Definition sub_scalar (t : tensor A) (c : A) : tensor A :=
  Tensor (shape t) ((fun x => s_sub x c) <$> data t).
Definition div_scalar (t : tensor A) (c : A) : tensor A :=
  Tensor (shape t) ((fun x => s_div x c) <$> data t).

(** One output row of [F.linear]. *)
Definition dot (x w : list A) : A := sum (zip_with s_mul x w).

Definition affine_row (ws : list (list A)) (b : option (list A)) (x : list A)
  : list A :=
  let y := dot x <$> ws in
  match b with
  | Some bs => zip_with s_add y bs
  | None => y
  end.

(** [F.linear(input, weight, bias)]: [input @ weight.T + bias], for the
    bias an [nn.Linear] holds, one entry per output.  ([F.linear] would also
    broadcast a bias of another shape; no layer of the scripts has one, and
    such a bias is refused here.) *)
Definition linear (input weight : tensor A) (bias : option (tensor A))
  : result (tensor A) :=
  match shape weight with
  | [out_f; in_f] =>
      if bool_decide (last (shape input) = Some in_f)
         && match bias with
            | Some b => bool_decide (shape b = [out_f])
            | None => true
            end
      then
        Ok (Tensor (removelast (shape input) ++ [out_f])
              (concat (affine_row (chunks in_f out_f (data weight))
                         (data <$> bias) <$> rows input)))
      else Raise RuntimeError
  | _ => Raise RuntimeError
  end.

(** [t.flatten()] *)
Definition flatten (t : tensor A) : tensor A :=
  Tensor [length (data t)] (data t).

End Ops.
End torch.

(* ================================================================== *)
(** * binary_KWS.py *)
(* ================================================================== *)

Module BinaryKWS.

Definition num_epochs : Z := 20.
Definition batch_size : nat := 100.
Definition sample_rate : Z := 16000.
Definition num_mel_bins : Z := 64.

(** [{command: idx for idx, command in enumerate(commands)}] *)
Definition command_to_index (commands : list string) : gmap string nat :=
  foldl (fun (m : gmap string nat) (p : nat * string) => <[p.2 := p.1]> m)
    ∅ (enumerate commands).

Definition num_classes (commands : list string) : nat := length commands.

Module BinarizeSTE.
Section STE.
Context {A : Type} `{Scalar A}.

(** The autograd context: what [forward] saved for [backward]. *)
Record context : Type := Context { saved_tensors : list (tensor A) }.

Definition forward (ctx : context) (input : tensor A) : context * tensor A :=
  (ctx,
   torch.where_ (torch.ge_scalar input s_zero)
     (torch.ones_like input) (torch.neg (torch.ones_like input))).

Definition backward (ctx : context) (grad_output : tensor A) : tensor A :=
  grad_output.

(** [BinarizeSTE.apply]: the forward value on a fresh context. *)
Definition apply (input : tensor A) : tensor A :=
  (forward (Context []) input).2.
End STE.
End BinarizeSTE.

Definition binarize_ste {A} `{Scalar A} : tensor A -> tensor A :=
  BinarizeSTE.apply.

(** A collected sample: the file and its integer label. *)
Definition sample : Type := string * nat.

(** What the dataset constructor has done so far: the samples appended
    and the lines printed. *)
Record scan : Type := Scan {
  scan_samples : list sample;
  scan_stdout : list string
}.

Definition warning (command_dir : string) : string :=
  "Attenzione: La cartella " +:+ command_dir +:+ " non esiste.".

Definition dict_getitem (d : gmap string nat) (key : string) : result nat :=
  match d !! key with
  | Some v => Ok v
  | None => Raise (KeyError key)
  end.

Module SpeechCommandsDataset.
Section Dataset.
Context {A : Type} `{Scalar A}.

Record t : Type := Build {
  dataset_dir : string;
  commands : list string;
  transform : option (tensor A -> tensor A);
  samples : list sample
}.

(** The body of [for filename in os.listdir(command_dir)]. *)
Definition scan_file (c2i : gmap string nat) (command command_dir : string)
    (st : scan) (filename : string) : result scan :=
  if endswith filename ".wav" then
    label ← dict_getitem c2i command;
    Ok (Scan (scan_samples st ++ [(path_join command_dir filename, label)])
          (scan_stdout st))
  else Ok st.

(** The body of [for command in self.commands]. *)
Definition scan_command (c2i : gmap string nat) (fs : filesystem)
    (root : string) (st : scan) (command : string) : result scan :=
  let command_dir := path_join root command in
  if isdir fs command_dir then
    names ← listdir fs command_dir;
    foldM (scan_file c2i command command_dir) st names
  else
    Ok (Scan (scan_samples st) (scan_stdout st ++ [warning command_dir])).

(** [__init__]: the dataset and what it printed.  [c2i] is the module's
    [command_to_index]. *)
Definition init (c2i : gmap string nat) (fs : filesystem) (root : string)
    (cmds : list string) (tr : option (tensor A -> tensor A))
  : result (t * list string) :=
  st ← foldM (scan_command c2i fs root) (Scan [] []) cmds;
  Ok (Build root cmds tr (scan_samples st), scan_stdout st).

Definition len (self : t) : nat := length (samples self).

(** The literal [1e-5]. *)
Definition eps : A := s_div (s_of_Z 1) (s_of_Z 100000).

Section GetItem.
(** [torchaudio.load], [torchaudio.transforms.Resample(orig, new)],
    [Tensor.log2] and the reductions [Tensor.mean] and [Tensor.std] belong to
    the framework; the order in which the two reductions accumulate, and so
    their rounding, is the framework's. *)
Variable load : string -> result (tensor A * Z).
Variable resample : Z -> Z -> tensor A -> tensor A.
Variable log2 : tensor A -> tensor A.
Variable mean : tensor A -> A.
Variable std : tensor A -> A.

(** [(features - features.mean()) / (features.std() + 1e-5)]: the
    subtraction, the sum with [1e-5] and the division are elementwise. *)
Definition normalize (features : tensor A) : tensor A :=
  torch.div_scalar
    (torch.sub_scalar features (mean features))
    (s_add (std features) eps).

(** Lines 79-89: resample when needed, then one second of samples. *)
Definition fixed_length (waveform : tensor A) (sr : Z) : result (tensor A) :=
  let waveform :=
    if bool_decide (sr <> sample_rate)
    then resample sr sample_rate waveform
    else waveform in
  n ← torch.size waveform 1;
  if (Z.of_nat n <? sample_rate)%Z then
    torch.pad_right waveform (sample_rate - Z.of_nat n)
  else
    torch.slice_cols waveform sample_rate.

Definition getitem (self : t) (idx : Z) : result (tensor A * nat) :=
  fl ← Py.getitem (samples self) idx;
  ws ← load fl.1;
  waveform ← fixed_length ws.1 ws.2;
  let features :=
    match transform self with
    | Some tr => log2 (tr waveform)
    | None => waveform
    end in
  Ok (normalize features, fl.2).
End GetItem.
End Dataset.
End SpeechCommandsDataset.

Module BinarizeLinearSTE.
Section Layer.
Context {A : Type} `{Scalar A}.

(** The stored parameters of an [nn.Linear]. *)
Record t : Type := Build {
  in_features : nat;
  out_features : nat;
  weight : tensor A;
  bias : option (tensor A)
}.

(** [forward]: the layer after the call, and the value returned. *)
Definition forward (self : t) (input : tensor A) : t * result (tensor A) :=
  let weight_bin := binarize_ste (weight self) in
  let bias_bin :=
    match bias self with
    | Some b => Some (binarize_ste b)
    | None => None
    end in
  let input_bin := binarize_ste input in
  let output := torch.linear input_bin weight_bin bias_bin in
  (self, output).
End Layer.
End BinarizeLinearSTE.

(** The network after [model.eval()]: dropout is the identity and batch
    normalization uses its running statistics. *)
Module NeuralNetworkSimplified.
Section Net.
Context {A : Type} `{Scalar A}.

Record BatchNorm1d : Type := BatchNorm {
  num_features : nat;
  bn_weight : list A;
  bn_bias : list A;
  running_mean : list A;
  running_var : list A
}.

Record t : Type := Build {
  l1 : BinarizeLinearSTE.t (A := A);
  bn1 : BatchNorm1d;
  l2 : BinarizeLinearSTE.t (A := A)
}.

(** [x.view(x.size(0), -1)] *)
Definition view_rows (x : tensor A) : result (tensor A) :=
  b ← torch.size x 0;
  let n := torch.numel x in
  if bool_decide (b = 0%nat \/ n `mod` b <> 0)%nat then Raise RuntimeError
  else Ok (Tensor [b; n `div` b]%nat (data x)).

Definition bn_eps : A := s_div (s_of_Z 1) (s_of_Z 100000).

(** One channel of the evaluation-mode kernel: [x * alpha + beta] with
    [alpha = weight / sqrt (var + eps)] and [beta = bias - mean * alpha],
    each step rounded. *)
Definition bn_channel (p : A * A * A * A) (x : A) : A :=
  let '(m, v, w, b) := p in
  let invstd := s_div s_one (s_sqrt (s_add v bn_eps)) in
  let alpha := s_mul invstd w in
  let beta := s_sub b (s_mul m alpha) in
  s_add (s_mul x alpha) beta.

(** [nn.BatchNorm1d] in evaluation mode, on the 2-D input [l1] returns. *)
Definition batch_norm (bn : BatchNorm1d) (x : tensor A) : result (tensor A) :=
  match shape x with
  | [_; c] =>
      if bool_decide (c = num_features bn) then
        let ps := zip (zip (zip (running_mean bn) (running_var bn))
                         (bn_weight bn)) (bn_bias bn) in
        Ok (torch.map_rows
              (fun r => zip_with (fun x p => bn_channel p x) r ps) c x)
      else Raise RuntimeError
  | _ => Raise RuntimeError
  end.

(** [nn.Hardtanh()]: clamp to [-1, 1]. *)
Definition hardtanh (x : tensor A) : tensor A :=
  Tensor (shape x)
    ((fun v => if s_ltb v (s_neg s_one) then s_neg s_one
               else if s_ltb s_one v then s_one else v) <$> data x).

(** [nn.Dropout] in evaluation mode. *)
Definition dropout (x : tensor A) : tensor A := x.

Definition forward (self : t) (x : tensor A) : result (tensor A) :=
  x ← view_rows x;
  out ← (BinarizeLinearSTE.forward (l1 self) x).2;
  out ← batch_norm (bn1 self) out;
  let out := hardtanh out in
  let out := dropout out in
  (BinarizeLinearSTE.forward (l2 self) out).2.
End Net.
End NeuralNetworkSimplified.

(** The batches a [DataLoader] without shuffling yields. *)
Fixpoint batched_aux {X} (fuel n : nat) (l : list X) : list (list X) :=
  match fuel with
  | O => []
  | S fuel' =>
      match l with
      | [] => []
      | _ :: _ => take n l :: batched_aux fuel' n (drop n l)
      end
  end.

Definition batched {X} (n : nat) (l : list X) : list (list X) :=
  batched_aux (length l) n l.

(** The default collation: features stacked along a new first dimension,
    labels gathered in order. *)
Definition collate {A} (items : list (tensor A * nat))
  : result (tensor A * list nat) :=
  match items with
  | [] => Raise IndexError
  | first :: _ =>
      if forallb (fun it => bool_decide (shape it.1 = shape first.1)) items
      then Ok (Tensor (length items :: shape first.1)
                 (concat ((fun it => data it.1) <$> items)),
               snd <$> items)
      else Raise RuntimeError
  end.

Definition round_half_even (q : Q) : Z :=
  let fl := (Qnum q / Zpos (Qden q))%Z in
  let r := (Qnum q `mod` Zpos (Qden q))%Z in
  match (2 * r ?= Zpos (Qden q))%Z with
  | Lt => fl
  | Gt => (fl + 1)%Z
  | Eq => if Z.even fl then fl else (fl + 1)%Z
  end.

Definition two_digits (n : Z) : string :=
  (if (n <? 10)%Z then "0" else EmptyString) +:+ pretty n.

(** Python floats: IEEE 754 binary64. *)
Module F64.
Definition prec : Z := 53.
Definition emax : Z := 1024.
Definition emin : Z := (3 - emax - prec)%Z.

(** [2^E <= n / d] *)
Definition ge_pow2 (n d : positive) (E : Z) : bool :=
  if (E <? 0)%Z then (Zpos d <=? Zpos n * 2 ^ (- E))%Z
  else (2 ^ E * Zpos d <=? Zpos n)%Z.

(** The [E] with [2^E <= n / d < 2^(E+1)]. *)
Definition ilog2 (n d : positive) : Z :=
  let E0 := (Z.log2 (Zpos n) - Z.log2 (Zpos d))%Z in
  if ge_pow2 n d E0 then E0 else (E0 - 1)%Z.

(** [n / d] in units of [2^e]. *)
Definition scaled (n d : positive) (e : Z) : Q :=
  if (e <? 0)%Z then (Zpos n * 2 ^ (- e) # d)
  else (Zpos n # d * Z.to_pos (2 ^ e)).

(** The binary64 nearest to [n / d], ties to even: 53 significant bits, fewer
    below [2^-1022], infinity past the largest finite value. *)
Definition nearest (n d : positive) : spec_float :=
  let e := Z.max (ilog2 n d - (prec - 1)) emin in
  let m := round_half_even (scaled n d e) in
  let me := if (m =? 2 ^ prec)%Z then (2 ^ (prec - 1), e + 1)%Z else (m, e) in
  match me.1 with
  | Zpos p =>
      if (me.2 <=? emax - prec)%Z then S754_finite false p me.2
      else S754_infinity false
  | _ => S754_zero false
  end.
End F64.

(** Python's [a / b] on integers: the binary64 nearest to the quotient. *)
Definition true_div (a b : Z) : result spec_float :=
  match a, b with
  | _, Z0 => Raise ZeroDivisionError
  | Z0, _ => Ok (S754_zero (b <? 0)%Z)
  | _, _ =>
      match F64.nearest (Z.to_pos (Z.abs a)) (Z.to_pos (Z.abs b)) with
      | S754_infinity _ => Raise OverflowError
      | x => Ok (if xorb (a <? 0)%Z (b <? 0)%Z then SFopp x else x)
      end
  end.

(** ['{:.2f}'.format(x)]: the decimal with two digits after the point
    nearest to the value of [x], ties to even. *)
Definition format_2f (x : spec_float) : string :=
  match x with
  | S754_nan => "nan"
  | S754_infinity s => (if s then "-" else EmptyString) +:+ "inf"
  | S754_zero s => (if s then "-" else EmptyString) +:+ "0.00"
  | S754_finite s m e =>
      let n := round_half_even (float_value (S754_finite false m e) * 100) in
      (if s then "-" else EmptyString)
      +:+ pretty (n / 100)%Z +:+ "." +:+ two_digits (n `mod` 100)%Z
  end.

Section Evaluation.
Context {A : Type} `{Scalar A}.
Variable model : tensor A -> result (tensor A).

Definition isnan (x : A) : bool := negb (s_geb x x).

(** One row of [torch.max(outputs, 1)]: the index kept by a left-to-right
    scan that moves on every element not [<=] the kept one and stops at
    the first NaN. *)
Fixpoint argmax_scan (best : A) (best_i i : nat) (l : list A) : nat :=
  match l with
  | [] => best_i
  | v :: l' =>
      if s_geb best v then argmax_scan best best_i (S i) l'
      else if isnan v then i
      else argmax_scan v i (S i) l'
  end.

Definition argmax_row (r : list A) : nat :=
  match r with
  | [] => 0%nat
  | v :: _ => argmax_scan v 0 0 r
  end.

(** The entries of one example, [c] slices of [inner] elements, along
    dimension 1 at position [k] of the dimensions after it. *)
Definition along_dim1 (inner c : nat) (block : list A) (k : nat) : list A :=
  omap (fun r => r !! k) (chunks inner c block).

(** The indices of [torch.max(outputs, 1)]: dimension 1 is reduced, the
    others stay. *)
Definition max_dim1 (outputs : tensor A) : result (tensor nat) :=
  match shape outputs with
  | b :: c :: rest =>
      if bool_decide (c = 0%nat) then Raise IndexError
      else
        let inner := prod_list rest in
        Ok (Tensor (b :: rest)
              (concat
                 ((fun block =>
                     (fun k => argmax_row (along_dim1 inner c block k))
                       <$> seq 0 inner)
                    <$> chunks (c * inner) b (data outputs))))
  | _ => Raise IndexError
  end.

Definition count_eq (p l : list nat) : nat :=
  length (filter (fun ab => ab.1 = ab.2) (zip p l)).

(** Broadcasting along one dimension: a single entry stands for [n]. *)
Definition expand {X} (n : nat) (l : list X) : list X :=
  match l with
  | [x] => replicate n x
  | _ => l
  end.

(** [(predicted == labels).sum().item()]: the one-dimensional [labels] are
    broadcast against the last dimension of [predicted]. *)
Definition eq_sum (predicted : tensor nat) (labels : list nat) : result nat :=
  let n := length labels in
  let d := default 1%nat (last (shape predicted)) in
  if bool_decide (d = n \/ d = 1 \/ n = 1)%nat then
    Ok (sum_list ((fun r => count_eq (expand n r) (expand d labels))
                    <$> torch.rows predicted))
  else Raise RuntimeError.

(** The running counters [(correct, total)]. *)
Definition eval_batch (st : Z * Z) (batch : tensor A * list nat)
  : result (Z * Z) :=
  outputs ← model batch.1;
  predicted ← max_dim1 outputs;
  let total := (st.2 + Z.of_nat (length batch.2))%Z in
  n ← eq_sum predicted batch.2;
  Ok ((st.1 + Z.of_nat n)%Z, total).

Definition report (acc : spec_float) : string :=
  "Accuratezza del modello sul test set: " +:+ format_2f acc +:+ "%".

(** Lines 210-224: the line printed. *)
Definition evaluate (test_loader : list (tensor A * list nat))
  : result string :=
  st ← foldM eval_batch (0%Z, 0%Z) test_loader;
  acc ← true_div (100 * st.1) st.2;
  Ok (report acc).
End Evaluation.

(** Line 125: the width of one flattened example of a 4-D batch. *)
Definition input_size {A} `{Scalar A} (example_data : tensor A) : result nat :=
  c ← torch.size example_data 1;
  m ← torch.size example_data 2;
  t ← torch.size example_data 3;
  Ok (c * m * t)%nat.

End BinaryKWS.

(* ================================================================== *)
(** * first.py *)
(* ================================================================== *)

Module First.

Definition newline : string := String (Ascii.ascii_of_nat 10) EmptyString.

Module SpeechCommandsDataset.
Section Dataset.
Context {A : Type} `{Scalar A}.

Record t : Type := Build {
  root_dir : string;
  commands : list string;
  all_files : list string;
  labels : list nat;
  transform : option (tensor A -> tensor A)
}.

(** The body of [for idx, command in enumerate(self.commands)], on the
    pair [(all_files, labels)]. *)
Definition scan_command (fs : filesystem) (root : string)
    (st : list string * list nat) (ic : nat * string)
  : result (list string * list nat) :=
  let command_dir := path_join root ic.2 in
  if isdir fs command_dir then
    names ← listdir fs command_dir;
    let files := filter (fun f => endswith f ".wav" = true) names in
    Ok (st.1 ++ (path_join command_dir <$> files),
        st.2 ++ ((fun _ => ic.1) <$> files))
  else Ok st.

Definition init (fs : filesystem) (root : string)
    (tr : option (tensor A -> tensor A)) : result t :=
  names ← listdir fs root;
  let cmds := sorted names in
  st ← foldM (scan_command fs root) ([], []) (enumerate cmds);
  Ok (Build root cmds st.1 st.2 tr).

Definition len (self : t) : nat := length (all_files self).

Definition _preprocess_audio (waveform : tensor A) (sample_rate : Z)
  : result (tensor A) :=
  let fixed_length := 1%Z in
  let num_samples := (fixed_length * sample_rate)%Z in
  n ← torch.size waveform 1;
  if (Z.of_nat n >? num_samples)%Z then
    torch.slice_cols waveform num_samples
  else
    torch.pad_right waveform (num_samples - Z.of_nat n).

Section GetItem.
Variable load : string -> result (tensor A * Z).

Definition getitem (self : t) (idx : Z) : result (tensor A * nat) :=
  audio_path ← Py.getitem (all_files self) idx;
  label ← Py.getitem (labels self) idx;
  ws ← load audio_path;
  waveform ← _preprocess_audio ws.1 ws.2;
  let features :=
    match transform self with
    | Some tr => tr waveform
    | None => waveform
    end in
  Ok (features, label).
End GetItem.
End Dataset.
End SpeechCommandsDataset.

Module MLP.
Section Net.
Context {A : Type}.

Inductive layer : Type :=
| Linear (weight bias : tensor A)
| ReLU
| LogSoftmax.

(** [self.model], an [nn.Sequential]. *)
Record t : Type := Build { model : list layer }.

(** [__init__]; [new_linear i o] stands for a freshly initialised
    [nn.Linear(i, o)]. *)
Fixpoint hidden_layers (new_linear : nat -> nat -> layer)
    (in_size : nat) (hidden_sizes : list nat) : list layer * nat :=
  match hidden_sizes with
  | [] => ([], in_size)
  | h :: hs =>
      let rest := hidden_layers new_linear h hs in
      (new_linear in_size h :: ReLU :: rest.1, rest.2)
  end.

Definition init (new_linear : nat -> nat -> layer)
    (input_size : nat) (hidden_sizes : list nat) (num_classes : nat) : t :=
  let hl := hidden_layers new_linear input_size hidden_sizes in
  Build (hl.1 ++ [new_linear hl.2 num_classes; LogSoftmax]).

(** [named_parameters()]: each [Linear] child of [self.model], under its
    position in the sequence. *)
Definition named_parameters (self : t) : list (string * tensor A) :=
  concat (imap (fun (i : nat) (l : layer) =>
                  match l with
                  | Linear w b =>
                      [("model." +:+ pretty i +:+ ".weight", w);
                       ("model." +:+ pretty i +:+ ".bias", b)]
                  | _ => []
                  end) (model self)).
End Net.

Section Forward.
Context {A : Type} `{Scalar A}.

(** The framework's elementwise exponential and logarithm. *)
Variable s_exp : A -> A.
Variable s_log : A -> A.

(** [nn.ReLU] *)
Definition relu (x : tensor A) : tensor A :=
  Tensor (shape x) ((fun v => if s_ltb v s_zero then s_zero else v) <$> data x).

(** One row of [nn.LogSoftmax]: [x_i - log (sum_j exp x_j)].  The framework
    subtracts the row's maximum before exponentiating; over the reals the
    value is the same. *)
Definition log_softmax_row (r : list A) : list A :=
  let z := s_log (torch.sum (s_exp <$> r)) in
  (fun v => s_sub v z) <$> r.

(** [nn.LogSoftmax(dim=1)] on the 2-D batch the training loop passes. *)
Definition log_softmax (x : tensor A) : result (tensor A) :=
  match shape x with
  | [_; c] => Ok (torch.map_rows log_softmax_row c x)
  | _ => Raise IndexError
  end.

Definition apply_layer (x : tensor A) (l : layer) : result (tensor A) :=
  match l with
  | Linear w b => torch.linear x w (Some b)
  | ReLU => Ok (relu x)
  | LogSoftmax => log_softmax x
  end.

(** [forward]: the layers of [self.model] in order. *)
Definition forward (self : t) (x : tensor A) : result (tensor A) :=
  foldM apply_layer x (model self).
End Forward.
End MLP.

(** The ['%.18e'] conversion of a binary32 value: nineteen significant
    digits of its exact value, rounded to nearest, ties to even. *)
Definition ge_pow10 (num den E : Z) : bool :=
  if (E <? 0)%Z then (den <=? num * 10 ^ (- E))%Z
  else (10 ^ E * den <=? num)%Z.

Fixpoint lower_exp (fuel : nat) (num den E : Z) : Z :=
  match fuel with
  | O => E
  | S f => if ge_pow10 num den E then E else lower_exp f num den (E - 1)
  end.

Fixpoint raise_exp (fuel : nat) (num den E : Z) : Z :=
  match fuel with
  | O => E
  | S f => if ge_pow10 num den (E + 1) then raise_exp f num den (E + 1) else E
  end.

(** The [E] with [10^E <= num / den < 10^(E+1)], from a binary estimate. *)
Definition decimal_exponent (num den : Z) : Z :=
  let E0 := ((Z.log2 num - Z.log2 den) * 30103 / 100000)%Z in
  raise_exp 4 num den (lower_exp 4 num den E0).

Fixpoint zeros (n : nat) : string :=
  match n with
  | O => EmptyString
  | S n' => String "0"%char (zeros n')
  end.

Definition pad_left (width : nat) (s : string) : string :=
  zeros (width - String.length s) +:+ s.

Definition scientific (sign : bool) (num den : Z) : string :=
  let E := decimal_exponent num den in
  let q := if (18 - E <? 0)%Z
           then (num # Z.to_pos (den * 10 ^ (E - 18)))
           else (num * 10 ^ (18 - E) # Z.to_pos den) in
  let N := BinaryKWS.round_half_even q in
  let NE := if (N =? 10 ^ 19)%Z then (10 ^ 18, E + 1)%Z else (N, E) in
  (if sign then "-" else EmptyString)
  +:+ pretty (NE.1 / 10 ^ 18)%Z +:+ "."
  +:+ pad_left 18 (pretty (NE.1 `mod` 10 ^ 18)%Z)
  +:+ "e" +:+ (if (NE.2 <? 0)%Z then "-" else "+")
  +:+ pad_left 2 (pretty (Z.abs NE.2)).

Definition format_18e (x : F32.t) : string :=
  match x with
  | S754_zero s =>
      (if s then "-" else EmptyString) +:+ "0.000000000000000000e+00"
  | S754_infinity s => (if s then "-" else EmptyString) +:+ "inf"
  | S754_nan => "nan"
  | S754_finite s m e =>
      if (e <? 0)%Z then scientific s (Zpos m) (2 ^ (- e))
      else scientific s (Zpos m * 2 ^ e) 1
  end.

Section WeightExport.
Context {A : Type} `{Scalar A}.

(** The ['%.18e'] rendering of one number is the formatting library's. *)
Variable fmt : A -> string.

(** [d[key] = value] on an insertion-ordered dict. *)
Fixpoint dict_set {V} (d : list (string * V)) (key : string) (value : V)
  : list (string * V) :=
  match d with
  | [] => [(key, value)]
  | kv :: d' =>
      if String.eqb kv.1 key then (key, value) :: d'
      else kv :: dict_set d' key value
  end.

Fixpoint join (sep : string) (l : list string) : string :=
  match l with
  | [] => EmptyString
  | [x] => x
  | x :: l' => x +:+ sep +:+ join sep l'
  end.

(** The loop of [np.savetxt] over the rows of a 2-D array. *)
Definition savetxt_rows (delimiter : string) (X : list (list A)) : string :=
  String.concat EmptyString
    ((fun row => join delimiter (fmt <$> row) +:+ newline) <$> X).

(** [np.savetxt(fname, X, delimiter=...)]: the text written.  A 1-D array
    is first turned into a column ([np.atleast_2d(X).T]). *)
Definition savetxt (X : tensor A) (delimiter : string) : result string :=
  match shape X with
  | [_] => Ok (savetxt_rows delimiter ((fun x => [x]) <$> data X))
  | [r; c] => Ok (savetxt_rows delimiter (chunks c r (data X)))
  | _ => Raise ValueError
  end.

Definition export_filename (name : string) : string :=
  replace_char "."%char "_"%char name +:+ ".txt".

Definition export_message (name filename : string) : string :=
  "Pesi del layer '" +:+ name +:+ "' salvati in '" +:+ filename +:+ "'".

(** Lines 135-143: the files after the export and the lines printed. *)
Definition export (params : list (string * tensor A))
    (files : gmap string string)
  : result (gmap string string * list string) :=
  let weights :=
    foldl (fun d (p : string * tensor A) => dict_set d p.1 p.2) [] params in
  foldM
    (fun (st : gmap string string * list string) (p : string * tensor A) =>
       let filename := export_filename p.1 in
       text ← savetxt (torch.flatten p.2) ",";
       Ok (<[filename := text]> st.1,
           st.2 ++ [export_message p.1 filename]))
    (files, []) weights.
End WeightExport.

End First.

(* ================================================================== *)
(** * Properties *)
(* ================================================================== *)

Import BinaryKWS.

(** ** Vocabulary of the statements *)

Section SignView.
Context {A : Type} `{Scalar A}.

(** The sign map of the specification: [+1] on [x >= 0], [-1] elsewhere. *)
Definition sign (x : A) : A := if s_geb x s_zero then s_one else s_neg s_one.

(** The binarized view of a tensor: same shape, every element's sign. *)
Definition sign_view (t : tensor A) : tensor A :=
  Tensor (shape t) (sign <$> data t).

End SignView.

(** On binary32 the sign map never leaves [{+1, -1}], whatever it is given. *)
Definition pm1 (y : F32.t) : Prop := y = F32.one \/ y = F32.neg F32.one.

(** How one element [x] and its image [y] are related. *)
Definition binarized (x y : F32.t) : Prop :=
  pm1 y
  /\ (F32.geb x F32.zero = true -> y = F32.one)
  /\ (F32.geb x F32.zero = false -> y = F32.neg F32.one)
  /\ (F32.ltb x F32.zero = true -> y = F32.neg F32.one)
  /\ (x = F32.zero \/ x = F32.neg_zero -> y = F32.one).

(** A [c]-channel waveform of [n] frames. *)
Definition waveform_of {A} (c n : nat) (w : tensor A) : Prop :=
  shape w = [c; n] /\ wf w.

Section TruncateOrPad.
Context {A : Type} `{Scalar A}.

(** The specification's rule for one channel: keep the first [N] samples,
    or fill up with zeros on the right to [N]. *)
Definition truncate_or_pad (N : nat) (r : list A) : list A :=
  take N r ++ replicate (N - length r) s_zero.

End TruncateOrPad.

(** A resampler for the example below: every frame twice. *)
Definition twice_each (w : tensor F32.t) : tensor F32.t :=
  match shape w with
  | [c; n] => Tensor [c; 2 * n]%nat (flat_map (fun x => [x; x]) (data w))
  | _ => w
  end.

Definition three_frames : tensor F32.t :=
  Tensor [1; 3]%nat [F32.one; F32.zero; F32.neg F32.one].

(** The mapping [R] is a bijection between [vocab] and [{0, ..., n-1}]. *)
Definition label_bijection (R : string -> nat -> Prop) (vocab : list string)
    (n : nat) : Prop :=
  (forall c, c ∈ vocab -> exists i, R c i)
  /\ (forall c i, R c i -> c ∈ vocab /\ (i < n)%nat)
  /\ (forall c i j, R c i -> R c j -> i = j)
  /\ (forall c c' i, R c i -> R c' i -> c = c')
  /\ (forall i, (i < n)%nat -> exists c, R c i).

(** binary_KWS.py: the dict. first.py: the position in [self.commands]. *)
Definition dict_label (cmds : list string) (c : string) (i : nat) : Prop :=
  command_to_index cmds !! c = Some i.

Definition position_label (cmds : list string) (c : string) (i : nat) : Prop :=
  cmds !! i = Some c.

Definition is_wav (f : string) : Prop := endswith f ".wav" = true.

Definition wav_files (fs : filesystem) (dir : string) : list string :=
  match fs !! dir with
  | Some names => filter is_wav names
  | None => []
  end.

(** What one command contributes in binary_KWS.py. *)
Definition samples_of (c2i : gmap string nat) (fs : filesystem) (root : string)
    (command : string) : list sample :=
  match c2i !! command with
  | Some label =>
      (fun f => (path_join (path_join root command) f, label))
        <$> wav_files fs (path_join root command)
  | None => []
  end.

Definition warnings_of (fs : filesystem) (root command : string) : list string :=
  if isdir fs (path_join root command) then []
  else [warning (path_join root command)].

(** What one directory entry contributes in first.py. *)
Definition first_files (fs : filesystem) (root : string) (ic : nat * string)
  : list string :=
  path_join (path_join root ic.2) <$> wav_files fs (path_join root ic.2).

Definition first_labels (fs : filesystem) (root : string) (ic : nat * string)
  : list nat :=
  (fun _ => ic.1) <$> wav_files fs (path_join root ic.2).

(** A small dataset directory: two commands with clips, one stray file. *)
Definition example_fs : filesystem :=
  <["speech_commands" := ["yes"; "no"; "README.md"]]>
    (<["speech_commands/yes" := ["a.wav"; "b.wav"; "notes.txt"]]>
       (<["speech_commands/no" := ["c.wav"]]> ∅)).

Definition example_commands : list string := ["yes"; "up"; "no"].

Section RealSums.
Local Open Scope R_scope.

Definition Rsum (l : list R) : R := foldr Rplus 0 l.

End RealSums.

(** The binary32 nearest to [1e-5]. *)
Definition eps32 : F32.t := S754_finite false 10995116 (-40).



(** The two reductions accumulated in storage order, every step rounded.
    They serve the examples, on inputs such as [small_spread] below, whose
    mean and standard deviation are binary32 numbers reached without
    rounding. *)
Definition mean_in_order {A} `{Scalar A} (t : tensor A) : A :=
  s_div (torch.sum (data t)) (s_of_Z (Z.of_nat (length (data t)))).

Definition std_in_order {A} `{Scalar A} (t : tensor A) : A :=
  let m := mean_in_order t in
  let sq := (fun x => s_mul (s_sub x m) (s_sub x m)) <$> data t in
  s_sqrt (s_div (torch.sum sq)
            (s_of_Z (Z.max 0 (Z.of_nat (length (data t)) - 1)))).





(** How many examples are right: the positions at which the predicted class
    is the label. *)
Fixpoint agreements (predicted labels : list nat) : nat :=
  match predicted, labels with
  | p :: ps, l :: ls => ((if Nat.eqb p l then 1 else 0) + agreements ps ls)%nat
  | _, _ => 0%nat
  end.


Section Predictions.
Context {A : Type} `{Scalar A}.
Variable model : tensor A -> result (tensor A).

(** The classes predicted for a batch and how many of them are right. *)
Definition predicted_of (batch : tensor A * list nat) : list nat :=
  match model batch.1 with
  | Ok outputs =>
      match shape outputs with
      | [b; c] => argmax_row <$> chunks c b (data outputs)
      | _ => []
      end
  | Raise _ => []
  end.

Definition correct_of (batch : tensor A * list nat) : nat :=
  agreements (predicted_of batch) batch.2.

Definition total_examples (loader : list (tensor A * list nat)) : nat :=
  sum_list ((fun b => length b.2) <$> loader).

Definition total_correct (loader : list (tensor A * list nat)) : nat :=
  sum_list (correct_of <$> loader).

(** The model answers the batch with one row of scores per example. *)
Definition well_served (batch : tensor A * list nat) : Prop :=
  exists outputs c,
    model batch.1 = Ok outputs
    /\ shape outputs = [length batch.2; c] /\ c <> 0%nat.

End Predictions.


(** A two-feature, two-class network and one held-out batch of two clips. *)
Definition tiny_layer : BinarizeLinearSTE.t (A := F32.t) :=
  BinarizeLinearSTE.Build 2 2
    (Tensor [2; 2]%nat [F32.of_Z 1; F32.of_Z (-1); F32.of_Z (-1); F32.of_Z 1])
    (Some (Tensor [2%nat] [F32.zero; F32.zero])).

Definition tiny_net : NeuralNetworkSimplified.t (A := F32.t) :=
  NeuralNetworkSimplified.Build tiny_layer
    (NeuralNetworkSimplified.BatchNorm 2
       [F32.one; F32.one] [F32.zero; F32.zero]
       [F32.zero; F32.zero] [F32.one; F32.one])
    tiny_layer.

Definition tiny_batch : tensor F32.t * list nat :=
  (Tensor [2; 1; 2]%nat
     [F32.of_Z 1; F32.of_Z (-1); F32.of_Z (-1); F32.of_Z 1],
   [0%nat; 0%nat]).

Definition tiny_loader : list (tensor F32.t * list nat) := [tiny_batch].

Section Lines.
Context {A : Type} `{Scalar A}.
Variable fmt : A -> string.

(** One number per line. *)
Definition lines (l : list A) : string :=
  String.concat EmptyString ((fun x => fmt x +:+ First.newline) <$> l).

(** The files and messages of the export, when parameter names differ. *)
Definition written (files : gmap string string)
    (params : list (string * tensor A)) : gmap string string :=
  foldl (fun m (p : string * tensor A) =>
           <[First.export_filename p.1 := lines (data p.2)]> m) files params.

End Lines.

(** The network's forward pass with the activation and the dropout left
    out. *)
Definition forward_without_hardtanh {A} `{Scalar A}
    (net : NeuralNetworkSimplified.t (A := A)) (x : tensor A)
  : result (tensor A) :=
  x ← NeuralNetworkSimplified.view_rows x;
  out ← (BinarizeLinearSTE.forward (NeuralNetworkSimplified.l1 net) x).2;
  out ← NeuralNetworkSimplified.batch_norm (NeuralNetworkSimplified.bn1 net) out;
  (BinarizeLinearSTE.forward (NeuralNetworkSimplified.l2 net) out).2.

(** The stored bias, if any, has one entry per output. *)
Definition bias_fits {A} (o : nat) (bias : option (tensor A)) : Prop :=
  match bias with
  | Some b => shape b = [o]
  | None => True
  end.

(** The same sign pattern as [tiny_batch], other magnitudes. *)
Definition tiny_features : tensor F32.t := tiny_batch.1.

Definition tiny_features' : tensor F32.t :=
  Tensor [2; 1; 2]%nat
    [F32.of_Z 7; F32.div (F32.of_Z (-1)) (F32.of_Z 3); F32.of_Z (-20); F32.zero].

(** A batch the tiny network cannot take: three features per example. *)
Definition wide_batch : tensor F32.t * list nat :=
  (Tensor [1; 3]%nat [F32.one; F32.one; F32.one], [0%nat]).

(** An integer of absolute value at most [B], as a real. *)
Definition int_within (B : Z) (y : R) : Prop :=
  exists k : Z, y = IZR k /\ (Z.abs k <= B)%Z.

(** Plus or minus one, as a real. *)
Definition pm1_real (y : R) : Prop := y = 1%R \/ y = (-1)%R.

(** Two parameters of a network with one layer, as stored. *)
Definition example_params : list (string * tensor F32.t) :=
  [("model.0.weight", Tensor [1; 2]%nat [F32.one; F32.neg F32.one]);
   ("model.0.bias", Tensor [1%nat] [F32.zero])].

(** Decimal digits. *)
Definition is_digit (c : Ascii.ascii) : bool :=
  (48 <=? Ascii.nat_of_ascii c)%nat && (Ascii.nat_of_ascii c <=? 57)%nat.

Fixpoint digits_only (s : string) : Prop :=
  match s with
  | EmptyString => True
  | String c s' => is_digit c = true /\ digits_only s'
  end.

(** The file a parameter of the [i]-th child of [self.model] goes to. *)
Definition weight_file (i : nat) : string := "model_" +:+ pretty i +:+ "_weight.txt".
Definition bias_file (i : nat) : string := "model_" +:+ pretty i +:+ "_bias.txt".

Definition layer_files {A} (i : nat) (l : First.MLP.layer (A := A)) : list string :=
  match l with
  | First.MLP.Linear _ _ => [weight_file i; bias_file i]
  | _ => []
  end.

Definition is_linear {A} (l : First.MLP.layer (A := A)) : bool :=
  match l with
  | First.MLP.Linear _ _ => true
  | _ => false
  end.

Definition count_linear {A} (ls : list (First.MLP.layer (A := A))) : nat :=
  length (filter (fun l => is_linear l = true) ls).

(** What [nn.Linear(i, o)] constructs, whatever its initial values: an
    [o x i] weight and [o] biases. *)
Definition fresh_linear {A} (new_linear : nat -> nat -> First.MLP.layer (A := A))
  : Prop :=
  forall i o, exists w b,
    new_linear i o = First.MLP.Linear w b
    /\ waveform_of o i w /\ shape b = [o] /\ wf b.

Definition zero_linear (i o : nat) : First.MLP.layer (A := R) :=
  First.MLP.Linear (Tensor [o; i] (replicate (o * i) 0%R))
                   (Tensor [o] (replicate o 0%R)).

(* ================================================================== *)
(** * Theorems *)
(* ================================================================== *)


(** ** Straight-through binarization *)

Section Binarize.
Context {A : Type} `{Scalar A}.

Lemma where_ge_data (l : list A) :
  zip_with (fun (c : bool) (ab : A * A) => if c then ab.1 else ab.2)
    ((fun x => s_geb x s_zero) <$> l)
    (zip ((fun _ => s_one) <$> l) (s_neg <$> ((fun _ => s_one) <$> l)))
  = sign <$> l.
Proof.
  induction l as [|x l IH]; [reflexivity|].
  rewrite !fmap_cons. cbn [zip zip_with]. rewrite IH.
  unfold sign. destruct (s_geb x s_zero); reflexivity.
Qed.

Lemma forward_sign_view (ctx : BinarizeSTE.context) (input : tensor A) :
  BinarizeSTE.forward ctx input = (ctx, sign_view input).
Proof.
  unfold BinarizeSTE.forward, sign_view, torch.where_, torch.ge_scalar,
    torch.ones_like, torch.neg.
  cbn [shape data]. f_equal. f_equal. apply where_ge_data.
Qed.

Lemma binarize_ste_sign_view (t : tensor A) : binarize_ste t = sign_view t.
Proof.
  unfold binarize_ste, BinarizeSTE.apply. now rewrite forward_sign_view.
Qed.
End Binarize.

Lemma sign_binarized (x : F32.t) : binarized x (sign x).
Proof.
  unfold binarized, pm1, sign. cbn [s_geb s_zero s_one s_neg F32_scalar].
  destruct (F32.geb x F32.zero) eqn:Hge.
  - repeat split; auto; try congruence.
    intros Hlt. exfalso. revert Hge Hlt.
    unfold F32.geb, F32.ltb, F32.zero, SFleb, SFltb.
    destruct x as [[]|[]| |[] m e]; cbn; congruence.
  - repeat split; auto; try congruence.
    intros [-> | ->]; cbn in Hge; congruence.
Qed.

Lemma sign_pm1_fixed (y : F32.t) : pm1 y -> sign y = y.
Proof. intros [-> | ->]; reflexivity. Qed.

(** C1.  Whatever binary32 tensor the forward pass of [BinarizeSTE] is given
    (NaN, infinities and signed zeros included), the result has the shape of
    the input and every element of it is [+1] or [-1]: [+1] where the input
    element is [>= 0] (both zeros among them), [-1] where it is not, so
    where it is [< 0] and where it is NaN. *)
Theorem binarize_forward_pm1 (ctx : BinarizeSTE.context) (input : tensor F32.t) :
  shape (BinarizeSTE.forward ctx input).2 = shape input
  /\ Forall2 binarized (data input) (data (BinarizeSTE.forward ctx input).2).
Proof.
  rewrite forward_sign_view. cbn [snd sign_view shape data]. split; [reflexivity|].
  induction (data input) as [|x l IH]; cbn; constructor; auto using sign_binarized.
Qed.

(** C2.  The backward pass hands back the upstream gradient as it came,
    whatever the forward pass was run on and whatever element type. *)
Theorem binarize_backward_identity {A : Type} `{Scalar A}
    (ctx : BinarizeSTE.context) (input grad_output : tensor A) :
  BinarizeSTE.backward (BinarizeSTE.forward ctx input).1 grad_output = grad_output.
Proof. reflexivity. Qed.

(** C10.  Binarizing twice is binarizing once. *)
Theorem binarize_forward_idempotent (ctx ctx' : BinarizeSTE.context)
    (x : tensor F32.t) :
  (BinarizeSTE.forward ctx' (BinarizeSTE.forward ctx x).2).2
  = (BinarizeSTE.forward ctx x).2.
Proof.
  rewrite !forward_sign_view. cbn [snd]. unfold sign_view. cbn [shape data].
  f_equal. rewrite <- list_fmap_compose.
  apply list_fmap_ext. intros i x0 _. cbn.
  apply sign_pm1_fixed, sign_binarized.
Qed.

(** The forward pass on a zero, a negative zero, a NaN, a negative number and
    an infinity. *)
Example binarize_forward_example :
  (BinarizeSTE.forward (BinarizeSTE.Context [])
     (Tensor [5%nat]
        [F32.zero; F32.neg_zero; F32.nan; F32.of_Z (-3); S754_infinity false])).2
  = Tensor [5%nat]
      [F32.one; F32.one; F32.neg F32.one; F32.neg F32.one; F32.one].
Proof. reflexivity. Qed.

(** Read over the reals, the same code is the sign with [sign 0 = 1]. *)
Lemma sign_real (x : R) :
  ((0 <= x)%R -> sign x = 1%R) /\ ((x < 0)%R -> sign x = (-1)%R).
Proof.
  unfold sign. cbn [s_geb s_zero s_one s_neg R_scalar]. unfold Real.geb.
  destruct (Rle_dec 0 x); split; intros; try reflexivity; lra.
Qed.

(** ** The binarized linear layer *)

Lemma sign_view_pm1 (t : tensor F32.t) : Forall pm1 (data (sign_view t)).
Proof.
  unfold sign_view. cbn [data]. apply Forall_fmap, Forall_true.
  intros x. apply sign_binarized.
Qed.

(** C3.  A call of [BinarizeLinearSTE.forward] returns the affine map applied
    to the sign views of the input, of the stored weight and of the stored
    bias; every element of those views is [+1] or [-1]; the layer itself comes
    back as it was, so a second call works again from the same continuous
    parameters. *)
Theorem binarized_linear_forward (self : BinarizeLinearSTE.t) (input input' : tensor F32.t) :
  (BinarizeLinearSTE.forward self input).1 = self
  /\ (BinarizeLinearSTE.forward self input).2
     = torch.linear (sign_view input) (sign_view (BinarizeLinearSTE.weight self))
         (sign_view <$> BinarizeLinearSTE.bias self)
  /\ Forall pm1 (data (sign_view input))
  /\ Forall pm1 (data (sign_view (BinarizeLinearSTE.weight self)))
  /\ Forall pm1 (default [] (data <$> (sign_view <$> BinarizeLinearSTE.bias self)))
  /\ (BinarizeLinearSTE.forward (BinarizeLinearSTE.forward self input).1 input').2
     = torch.linear (sign_view input') (sign_view (BinarizeLinearSTE.weight self))
         (sign_view <$> BinarizeLinearSTE.bias self).
Proof.
  unfold BinarizeLinearSTE.forward. cbn [fst snd].
  rewrite !binarize_ste_sign_view.
  assert (Hb : match BinarizeLinearSTE.bias self with
               | Some b => Some (binarize_ste b)
               | None => None
               end = sign_view <$> BinarizeLinearSTE.bias self).
  { destruct (BinarizeLinearSTE.bias self); [|reflexivity].
    now rewrite binarize_ste_sign_view. }
  rewrite Hb.
  split; [reflexivity|]. split; [reflexivity|].
  split; [apply sign_view_pm1|]. split; [apply sign_view_pm1|].
  split; [|reflexivity].
  destruct (BinarizeLinearSTE.bias self) as [b|]; cbn [fmap option_fmap option_map default].
  - apply sign_view_pm1.
  - constructor.
Qed.

(** Only the signs of the input reach the output. *)
Lemma binarized_linear_signs (self : BinarizeLinearSTE.t) (x y : tensor F32.t) :
  sign_view x = sign_view y ->
  (BinarizeLinearSTE.forward self x).2 = (BinarizeLinearSTE.forward self y).2.
Proof.
  intros Hxy. unfold BinarizeLinearSTE.forward. cbn [snd].
  now rewrite !(binarize_ste_sign_view x), !(binarize_ste_sign_view y), Hxy.
Qed.

(** One output of a layer with weight [[0.5, -2]] and bias [0.25] on the
    input [[3, -0.25]]: [1 * 1 + (-1) * (-1) + 1 = 3]. *)
Example binarized_linear_example :
  BinarizeLinearSTE.forward
    (BinarizeLinearSTE.Build 2 1
       (Tensor [1; 2]%nat [F32.div (F32.of_Z 1) (F32.of_Z 2); F32.of_Z (-2)])
       (Some (Tensor [1%nat] [F32.div (F32.of_Z 1) (F32.of_Z 4)])))
    (Tensor [1; 2]%nat [F32.of_Z 3; F32.div (F32.of_Z (-1)) (F32.of_Z 4)])
  = (BinarizeLinearSTE.Build 2 1
       (Tensor [1; 2]%nat [F32.div (F32.of_Z 1) (F32.of_Z 2); F32.of_Z (-2)])
       (Some (Tensor [1%nat] [F32.div (F32.of_Z 1) (F32.of_Z 4)])),
     Ok (Tensor [1; 1]%nat [F32.of_Z 3])).
Proof. vm_compute. reflexivity. Qed.

(** ** Rows of a tensor *)

Section Rows.
Context {A : Type}.

Lemma chunks_length (n k : nat) (l : list A) : length (chunks n k l) = k.
Proof. revert l. induction k; intros l; cbn; [reflexivity | now rewrite IHk]. Qed.

Lemma chunks_row_length (n k : nat) (l : list A) :
  length l = (k * n)%nat -> Forall (fun r => length r = n) (chunks n k l).
Proof.
  revert l. induction k as [|k IH]; intros l Hl; cbn; constructor.
  - rewrite length_take. lia.
  - apply IH. rewrite length_drop. lia.
Qed.

Lemma chunks_concat (n : nat) (rs : list (list A)) :
  Forall (fun r => length r = n) rs -> chunks n (length rs) (concat rs) = rs.
Proof.
  induction 1 as [|r rs Hr _ IH]; cbn; [reflexivity|].
  rewrite take_app_length', drop_app_length' by (symmetry; assumption).
  now rewrite IH.
Qed.

Lemma concat_chunks (n k : nat) (l : list A) :
  length l = (k * n)%nat -> concat (chunks n k l) = l.
Proof.
  revert l. induction k as [|k IH]; intros l Hl; cbn.
  - destruct l; [reflexivity | discriminate].
  - rewrite IH by (rewrite length_drop; lia). apply take_drop.
Qed.

Lemma concat_length_rows (n : nat) (rs : list (list A)) :
  Forall (fun r => length r = n) rs -> length (concat rs) = (length rs * n)%nat.
Proof. induction 1 as [|r rs Hr _ IH]; cbn; [reflexivity|]. rewrite length_app. lia. Qed.
End Rows.

Section MapRows.
Context {A : Type} `{Scalar A}.

Lemma rows_2d (c n : nat) (t : tensor A) :
  waveform_of c n t ->
  torch.rows t = chunks n c (data t)
  /\ length (torch.rows t) = c
  /\ Forall (fun r => length r = n) (torch.rows t).
Proof.
  intros [Hs Hwf]. unfold torch.rows. rewrite Hs. cbn.
  rewrite Nat.mul_1_r. split; [reflexivity|]. split; [apply chunks_length|].
  apply chunks_row_length. unfold wf in Hwf. rewrite Hwf, Hs. cbn. lia.
Qed.

Lemma map_rows_2d (c n n' : nat) (f : list A -> list A) (t : tensor A) :
  waveform_of c n t ->
  (forall r, length r = n -> length (f r) = n') ->
  waveform_of c n' (torch.map_rows f n' t)
  /\ torch.rows (torch.map_rows f n' t) = f <$> torch.rows t.
Proof.
  intros Ht Hf. destruct (rows_2d c n t Ht) as (Hrows & Hlen & Hall).
  assert (Hall' : Forall (fun r => length r = n') (f <$> torch.rows t)).
  { apply Forall_fmap. eapply Forall_impl; [exact Hall|]. cbn. auto. }
  assert (Hw : waveform_of c n' (torch.map_rows f n' t)).
  { destruct Ht as [Hs _]. split.
    - unfold torch.map_rows. cbn [shape]. now rewrite Hs.
    - unfold wf, torch.map_rows. cbn [shape data]. rewrite Hs. cbn.
      rewrite (concat_length_rows n') by assumption.
      rewrite length_fmap, Hlen. lia. }
  split; [exact Hw|].
  destruct (rows_2d c n' _ Hw) as (-> & _ & _).
  unfold torch.map_rows. cbn [data].
  rewrite <- (chunks_concat n' (f <$> torch.rows t)) at 2 by assumption.
  now rewrite length_fmap, Hlen.
Qed.
End MapRows.

(** ** Fixed-length waveforms *)

Section FixedLength.
Context {A : Type} `{Scalar A}.

Lemma truncate_or_pad_length (N : nat) (r : list A) :
  length (truncate_or_pad N r) = N.
Proof.
  unfold truncate_or_pad. rewrite length_app, length_take, length_replicate. lia.
Qed.

Lemma truncate_or_pad_long (N : nat) (r : list A) :
  (N <= length r)%nat -> truncate_or_pad N r = take N r.
Proof.
  intros Hn. unfold truncate_or_pad.
  replace (N - length r)%nat with 0%nat by lia. apply app_nil_r.
Qed.

Lemma truncate_or_pad_short (N : nat) (r : list A) :
  (length r <= N)%nat ->
  truncate_or_pad N r = r ++ replicate (N - length r) s_zero.
Proof. intros Hn. unfold truncate_or_pad. now rewrite take_ge. Qed.

Lemma take_pad (N n : nat) (r : list A) :
  length r = n ->
  take N (r ++ replicate (N - n) s_zero) = truncate_or_pad N r.
Proof.
  intros Hr. unfold truncate_or_pad. rewrite take_app, Hr.
  f_equal. rewrite take_ge; [reflexivity|]. rewrite length_replicate. lia.
Qed.

Lemma fmap_rows_ext (c n : nat) (f g : list A -> list A) (t : tensor A) :
  waveform_of c n t ->
  (forall r, length r = n -> f r = g r) ->
  f <$> torch.rows t = g <$> torch.rows t.
Proof.
  intros Ht Hfg. destruct (rows_2d c n t Ht) as (_ & _ & Hall).
  apply Forall_fmap_ext. eapply Forall_impl; [exact Hall|]. auto.
Qed.

(** [pad_right] and [slice_cols], when they bring a waveform to [N] frames. *)
Lemma pad_right_spec (c n N : nat) (w : tensor A) (padding : Z) :
  waveform_of c n w ->
  (Z.of_nat n + padding = Z.of_nat N)%Z -> (0 <= padding)%Z ->
  exists out, torch.pad_right w padding = Ok out
    /\ waveform_of c N out
    /\ torch.rows out = truncate_or_pad N <$> torch.rows w.
Proof.
  intros Hw HN Hp. pose proof Hw as [Hs _].
  unfold torch.pad_right. rewrite Hs. cbn [last].
  replace (Z.of_nat n + padding)%Z with (Z.of_nat N) by lia.
  destruct (Z.ltb_spec (Z.of_nat N) 0); [lia|]. rewrite Nat2Z.id.
  replace (Z.to_nat padding) with (N - n)%nat by lia.
  eexists. split; [reflexivity|].
  destruct (map_rows_2d c n N
              (fun r => take N (r ++ replicate (N - n) s_zero)) w Hw) as [Hw' Hr].
  { intros r Hr. rewrite (take_pad N n r Hr). apply truncate_or_pad_length. }
  split; [exact Hw'|]. rewrite Hr.
  apply (fmap_rows_ext c n); [exact Hw|]. intros r Hlen. now apply take_pad.
Qed.

Lemma slice_cols_spec (c n N : nat) (w : tensor A) (stop : Z) :
  waveform_of c n w ->
  stop = Z.of_nat N -> (N <= n)%nat ->
  exists out, torch.slice_cols w stop = Ok out
    /\ waveform_of c N out
    /\ torch.rows out = truncate_or_pad N <$> torch.rows w.
Proof.
  intros Hw -> HN. pose proof Hw as [Hs _].
  unfold torch.slice_cols. rewrite Hs.
  assert (Hstop : slice_stop n (Z.of_nat N) = N).
  { unfold slice_stop. destruct (Z.ltb_spec (Z.of_nat N) 0); lia. }
  rewrite Hstop. eexists. split; [reflexivity|].
  destruct (map_rows_2d c n N (take N) w Hw) as [Hw' Hr].
  { intros r Hr. rewrite length_take. lia. }
  split; [exact Hw'|]. rewrite Hr.
  apply (fmap_rows_ext c n); [exact Hw|]. intros r Hlen.
  symmetry. apply truncate_or_pad_long. lia.
Qed.

(** binary_KWS.py: always [sample_rate] frames, whatever the native rate. *)
Lemma fixed_length_spec (resample : Z -> Z -> tensor A -> tensor A)
    (c n : nat) (w : tensor A) (sr : Z) :
  let w' := if bool_decide (sr <> sample_rate)
            then resample sr sample_rate w else w in
  waveform_of c n w' ->
  exists out, SpeechCommandsDataset.fixed_length resample w sr = Ok out
    /\ waveform_of c (Z.to_nat sample_rate) out
    /\ torch.rows out = truncate_or_pad (Z.to_nat sample_rate) <$> torch.rows w'.
Proof.
  intros w' Hw. unfold SpeechCommandsDataset.fixed_length. fold w'.
  pose proof Hw as [Hs _].
  unfold torch.size. rewrite Hs. cbn [lookup list_lookup mbind result_bind Py.bind].
  destruct (Z.ltb_spec (Z.of_nat n) sample_rate) as [Hlt|Hge].
  - apply (pad_right_spec c n); [exact Hw| |]; unfold sample_rate in *; lia.
  - apply (slice_cols_spec c n); [exact Hw| |]; unfold sample_rate in *; lia.
Qed.

(** first.py: [sample_rate] here is the rate of the file loaded, and the
    output has that many frames. *)
Lemma preprocess_audio_spec (c n : nat) (w : tensor A) (sr : Z) :
  waveform_of c n w -> (0 <= sr)%Z ->
  exists out, First.SpeechCommandsDataset._preprocess_audio w sr = Ok out
    /\ waveform_of c (Z.to_nat sr) out
    /\ torch.rows out = truncate_or_pad (Z.to_nat sr) <$> torch.rows w.
Proof.
  intros Hw Hsr. unfold First.SpeechCommandsDataset._preprocess_audio.
  pose proof Hw as [Hs _].
  unfold torch.size. rewrite Hs. cbn [lookup list_lookup mbind result_bind Py.bind].
  rewrite Z.mul_1_l.
  destruct (Z.gtb_spec (Z.of_nat n) sr) as [Hgt|Hle].
  - apply (slice_cols_spec c n); [exact Hw| |]; lia.
  - apply (pad_right_spec c n); [exact Hw| |]; lia.
Qed.
End FixedLength.

(** C4 (as amended).  Let [w] be a loaded waveform of [c] channels and [sr]
    its native rate.  binary_KWS.py resamples to 16 kHz when [sr] differs and
    then returns exactly 16000 frames per channel: the first 16000, or all of
    them followed by zeros.  first.py does not resample and returns exactly
    [sr] frames per channel by the same rule; that is 16000 only for a file
    recorded at 16 kHz. *)
Theorem fixed_length_normalization {A : Type} `{Scalar A}
    (resample : Z -> Z -> tensor A -> tensor A)
    (c n m : nat) (w : tensor A) (sr : Z) :
  waveform_of c n w ->
  waveform_of c m (if bool_decide (sr <> sample_rate)
                   then resample sr sample_rate w else w) ->
  (0 <= sr)%Z ->
  (exists out, SpeechCommandsDataset.fixed_length resample w sr = Ok out
     /\ waveform_of c (Z.to_nat 16000) out
     /\ torch.rows out
        = truncate_or_pad (Z.to_nat 16000)
            <$> torch.rows (if bool_decide (sr <> sample_rate)
                            then resample sr sample_rate w else w))
  /\ (exists out, First.SpeechCommandsDataset._preprocess_audio w sr = Ok out
        /\ waveform_of c (Z.to_nat sr) out
        /\ torch.rows out = truncate_or_pad (Z.to_nat sr) <$> torch.rows w).
Proof.
  intros Hw Hw' Hsr. split.
  - exact (fixed_length_spec resample c m w sr Hw').
  - exact (preprocess_audio_spec c n w sr Hw Hsr).
Qed.

Lemma fixed_length_normalization_witness :
  (exists out,
     SpeechCommandsDataset.fixed_length (fun _ _ => twice_each) three_frames 8000
       = Ok out
     /\ waveform_of 1 (Z.to_nat 16000) out
     /\ torch.rows out
        = truncate_or_pad (Z.to_nat 16000)
            <$> torch.rows (if bool_decide (8000%Z <> sample_rate)
                            then twice_each three_frames else three_frames))
  /\ (exists out,
        First.SpeechCommandsDataset._preprocess_audio three_frames 8000 = Ok out
        /\ waveform_of 1 (Z.to_nat 8000) out
        /\ torch.rows out
           = truncate_or_pad (Z.to_nat 8000) <$> torch.rows three_frames).
Proof.
  apply (fixed_length_normalization (fun _ _ => twice_each) 1 3 6 three_frames 8000).
  - split; reflexivity.
  - split; reflexivity.
  - lia.
Defined.

(** C4 as stated fails in first.py: a mono clip recorded at 8 kHz comes out
    with 8000 frames, not 16000. *)
Lemma preprocess_audio_8kHz_counterexample :
  exists out,
    First.SpeechCommandsDataset._preprocess_audio three_frames 8000 = Ok out
    /\ shape out = [1%nat; Z.to_nat 8000]
    /\ shape out <> [1%nat; Z.to_nat 16000].
Proof.
  destruct (preprocess_audio_spec 1 3 three_frames 8000) as (out & Hout & [Hs _] & _).
  - split; reflexivity.
  - lia.
  - exists out. split; [exact Hout|]. split; [exact Hs|].
    rewrite Hs. intros Heq. injection Heq as Heq. lia.
Qed.

(** ** The label-index mapping *)

Lemma enumerate_snoc {X} (l : list X) (x : X) :
  enumerate (l ++ [x]) = enumerate l ++ [(length l, x)].
Proof.
  unfold enumerate. rewrite imap_app. cbn. now rewrite Nat.add_0_r.
Qed.

Lemma command_to_index_snoc (l : list string) (x : string) :
  command_to_index (l ++ [x]) = <[x := length l]> (command_to_index l).
Proof.
  unfold command_to_index. now rewrite enumerate_snoc, foldl_snoc.
Qed.

(** A command is sent to the position of its last occurrence. *)
Lemma command_to_index_lookup (l : list string) (c : string) (i : nat) :
  command_to_index l !! c = Some i <-> l !! i = Some c /\ c ∉ drop (S i) l.
Proof.
  revert i. induction l as [|x l IH] using rev_ind; intros i.
  - unfold command_to_index. cbn. rewrite lookup_empty. split; [discriminate|].
    intros [Hl _]. discriminate.
  - rewrite command_to_index_snoc.
    destruct (decide (x = c)) as [->|Hne].
    + rewrite lookup_insert_eq. split.
      * intros [= <-]. split.
        -- rewrite lookup_app_r by lia. now rewrite Nat.sub_diag.
        -- rewrite drop_ge by (rewrite length_app; cbn; lia). apply not_elem_of_nil.
      * intros [Hl Hd]. f_equal.
        destruct (decide (i < length l)%nat) as [Hlt|Hge].
        -- exfalso. apply Hd. rewrite drop_app_le by lia.
           apply elem_of_app. right. apply list_elem_of_singleton. reflexivity.
        -- apply lookup_lt_Some in Hl. rewrite length_app in Hl. cbn in Hl. lia.
    + rewrite lookup_insert_ne by assumption. rewrite IH. split.
      * intros [Hl Hd]. pose proof (lookup_lt_Some _ _ _ Hl) as Hlt. split.
        -- now rewrite lookup_app_l.
        -- rewrite drop_app_le by lia. rewrite elem_of_app, list_elem_of_singleton.
           intros [?|?]; [tauto | congruence].
      * intros [Hl Hd].
        destruct (decide (i < length l)%nat) as [Hlt|Hge].
        -- rewrite lookup_app_l in Hl by assumption. split; [assumption|].
           rewrite drop_app_le in Hd by lia. rewrite elem_of_app in Hd. tauto.
        -- exfalso. rewrite lookup_app_r in Hl by lia.
           destruct (i - length l)%nat; cbn in Hl; [congruence | discriminate].
Qed.

Lemma command_to_index_range (l : list string) (c : string) (i : nat) :
  command_to_index l !! c = Some i -> (i < num_classes l)%nat /\ l !! i = Some c.
Proof.
  rewrite command_to_index_lookup. intros [Hl _]. split; [|assumption].
  exact (lookup_lt_Some _ _ _ Hl).
Qed.

Lemma command_to_index_dom (l : list string) (c : string) :
  c ∈ l -> is_Some (command_to_index l !! c).
Proof.
  induction l as [|x l IH] using rev_ind; intros Hc.
  - now apply elem_of_nil in Hc.
  - rewrite command_to_index_snoc.
    destruct (decide (x = c)) as [->|Hne].
    + rewrite lookup_insert_eq. eauto.
    + rewrite lookup_insert_ne by assumption. apply IH.
      apply elem_of_app in Hc as [?|Hc]; [assumption|].
      apply list_elem_of_singleton in Hc. congruence.
Qed.

Lemma command_to_index_NoDup (l : list string) (c : string) (i : nat) :
  NoDup l -> (command_to_index l !! c = Some i <-> l !! i = Some c).
Proof.
  intros Hnd. rewrite command_to_index_lookup. split; [tauto|].
  intros Hl. split; [assumption|]. intros Hin.
  apply list_elem_of_lookup in Hin as [j Hj]. rewrite lookup_drop in Hj.
  pose proof (NoDup_lookup _ _ _ _ Hnd Hl Hj). lia.
Qed.

Lemma position_label_bijection (cmds : list string) :
  NoDup cmds -> label_bijection (position_label cmds) cmds (length cmds).
Proof.
  intros Hnd. unfold label_bijection, position_label. repeat split.
  - intros c Hc. now apply list_elem_of_lookup.
  - apply list_elem_of_lookup. eauto.
  - eapply lookup_lt_Some; eauto.
  - intros c i j Hi Hj. exact (NoDup_lookup _ _ _ _ Hnd Hi Hj).
  - intros c c' i Hi Hj. congruence.
  - intros i Hi. apply lookup_lt_is_Some in Hi as [c Hc]. eauto.
Qed.

Lemma label_bijection_ext (R R' : string -> nat -> Prop) (vocab : list string)
    (n : nat) :
  (forall c i, R c i <-> R' c i) ->
  label_bijection R vocab n -> label_bijection R' vocab n.
Proof.
  intros Hext (H1 & H2 & H3 & H4 & H5). unfold label_bijection.
  split; [|split; [|split; [|split]]].
  - intros c Hc. destruct (H1 c Hc) as [i Hi]. exists i. now apply Hext.
  - intros c i Hi. apply Hext in Hi. now apply (H2 c i).
  - intros c i j Hi Hj. apply Hext in Hi, Hj. eauto.
  - intros c c' i Hi Hj. apply Hext in Hi, Hj. eauto.
  - intros i Hi. destruct (H5 i Hi) as [c Hc]. exists c. now apply Hext.
Qed.

Lemma dict_label_bijection (cmds : list string) :
  label_bijection (dict_label cmds) cmds (num_classes cmds) <-> NoDup cmds.
Proof.
  split.
  - intros (_ & _ & Hfun & _ & Hsur). apply NoDup_alt. intros i j x Hi Hj.
    assert (Hx : forall k, cmds !! k = Some x -> dict_label cmds x k).
    { intros k Hk. destruct (Hsur k) as [c Hc]; [eapply lookup_lt_Some; eauto|].
      pose proof (command_to_index_range _ _ _ Hc) as [_ Hk'].
      unfold dict_label in *. congruence. }
    eapply Hfun; eauto.
  - intros Hnd. apply (label_bijection_ext (position_label cmds)).
    + intros c i. unfold dict_label, position_label.
      symmetry. now apply command_to_index_NoDup.
    + now apply position_label_bijection.
Qed.

(** ** The dataset constructors *)

Lemma elem_of_concat {X} (x : X) (ls : list (list X)) :
  x ∈ concat ls <-> exists l, x ∈ l /\ l ∈ ls.
Proof.
  induction ls as [|l ls IH]; cbn.
  - split; [intros Hx; now apply elem_of_nil in Hx|].
    intros (l & _ & Hl). now apply elem_of_nil in Hl.
  - rewrite elem_of_app, IH. split.
    + intros [Hx | (l' & Hx & Hl')]; [exists l | exists l']; split; auto; now constructor.
    + intros (l' & Hx & Hl'). apply elem_of_cons in Hl' as [-> | Hl']; eauto.
Qed.

Section Builder.
Context {A : Type} `{Scalar A}.

Lemma scan_file_fold (c2i : gmap string nat) (command dir : string)
    (label : nat) (names : list string) (st : scan) :
  c2i !! command = Some label ->
  foldM (SpeechCommandsDataset.scan_file c2i command dir) st names
  = Ok (Scan (scan_samples st
              ++ ((fun f => (path_join dir f, label)) <$> filter is_wav names))
          (scan_stdout st)).
Proof.
  intros Hl. revert st. induction names as [|x names IH]; intros st.
  - cbn. rewrite app_nil_r. now destruct st.
  - cbn [foldM]. unfold SpeechCommandsDataset.scan_file at 1.
    unfold dict_getitem. rewrite Hl.
    destruct (endswith x ".wav") eqn:Hx; cbn [mbind result_bind Py.bind].
    + rewrite IH. cbn [scan_samples scan_stdout].
      rewrite filter_cons_True by exact Hx. rewrite fmap_cons.
      now rewrite <- app_assoc.
    + rewrite IH. rewrite filter_cons_False; [reflexivity|].
      unfold is_wav. congruence.
Qed.

Lemma scan_command_fold (c2i : gmap string nat) (fs : filesystem)
    (root : string) (cmds : list string) (st : scan) :
  (forall c, c ∈ cmds -> is_Some (c2i !! c)) ->
  foldM (SpeechCommandsDataset.scan_command c2i fs root) st cmds
  = Ok (Scan (scan_samples st ++ concat (samples_of c2i fs root <$> cmds))
          (scan_stdout st ++ concat (warnings_of fs root <$> cmds))).
Proof.
  revert st. induction cmds as [|c cmds IH]; intros st Hdom.
  - cbn. rewrite !app_nil_r. now destruct st.
  - cbn [foldM]. unfold SpeechCommandsDataset.scan_command at 1.
    destruct (Hdom c) as [label Hlabel]; [left|].
    rewrite !fmap_cons. cbn [concat].
    assert (Hs : samples_of c2i fs root c
                 = (fun f => (path_join (path_join root c) f, label))
                     <$> wav_files fs (path_join root c)).
    { unfold samples_of. now rewrite Hlabel. }
    rewrite Hs. unfold warnings_of at 1, wav_files, isdir, listdir.
    destruct (fs !! path_join root c) as [names|] eqn:Hdir;
      cbn [mbind result_bind Py.bind].
    + rewrite (scan_file_fold c2i c _ label names st Hlabel).
      cbn [Py.bind]. rewrite IH by (intros; apply Hdom; now right).
      cbn [scan_samples scan_stdout]. now rewrite app_nil_l, <- app_assoc.
    + cbn [Py.bind]. rewrite IH by (intros; apply Hdom; now right).
      cbn [scan_samples scan_stdout fmap list_fmap].
      now rewrite app_nil_l, <- app_assoc.
Qed.

Lemma init_spec (fs : filesystem) (root : string) (cmds : list string)
    (tr : option (tensor A -> tensor A)) :
  SpeechCommandsDataset.init (command_to_index cmds) fs root cmds tr
  = Ok (SpeechCommandsDataset.Build root cmds tr
          (concat (samples_of (command_to_index cmds) fs root <$> cmds)),
        concat (warnings_of fs root <$> cmds)).
Proof.
  unfold SpeechCommandsDataset.init.
  rewrite scan_command_fold by apply command_to_index_dom. reflexivity.
Qed.

Lemma samples_of_elem (c2i : gmap string nat) (fs : filesystem) (root : string)
    (cmds : list string) (s : sample) :
  s ∈ concat (samples_of c2i fs root <$> cmds) ->
  exists command f,
    command ∈ cmds /\ c2i !! command = Some s.2
    /\ f ∈ wav_files fs (path_join root command)
    /\ s.1 = path_join (path_join root command) f.
Proof.
  intros Hs. apply elem_of_concat in Hs as (l & Hs & Hl).
  apply list_elem_of_fmap in Hl as (command & -> & Hc).
  unfold samples_of in Hs. destruct (c2i !! command) as [label|] eqn:Hlabel.
  - apply list_elem_of_fmap in Hs as (f & -> & Hf). exists command, f. auto.
  - now apply elem_of_nil in Hs.
Qed.
End Builder.

Section FirstBuilder.
Context {A : Type} `{Scalar A}.

Lemma first_scan_fold (fs : filesystem) (root : string)
    (l : list (nat * string)) (st : list string * list nat) :
  foldM (First.SpeechCommandsDataset.scan_command fs root) st l
  = Ok (st.1 ++ concat (first_files fs root <$> l),
        st.2 ++ concat (first_labels fs root <$> l)).
Proof.
  revert st. induction l as [|ic l IH]; intros st.
  - cbn. rewrite !app_nil_r. now destruct st.
  - cbn [foldM]. unfold First.SpeechCommandsDataset.scan_command at 1.
    rewrite !fmap_cons. cbn [concat].
    unfold first_files at 1, first_labels at 1, wav_files, isdir, listdir.
    destruct (fs !! path_join root ic.2) as [names|];
      cbn [mbind result_bind Py.bind]; rewrite IH; cbn [fst snd].
    + now rewrite <- !app_assoc.
    + reflexivity.
Qed.

Lemma first_init_spec (fs : filesystem) (root : string) (names : list string)
    (tr : option (tensor A -> tensor A)) :
  fs !! root = Some names ->
  First.SpeechCommandsDataset.init fs root tr
  = Ok (First.SpeechCommandsDataset.Build root (sorted names)
          (concat (first_files fs root <$> enumerate (sorted names)))
          (concat (first_labels fs root <$> enumerate (sorted names))) tr).
Proof.
  intros Hroot. unfold First.SpeechCommandsDataset.init, listdir.
  rewrite Hroot. cbn [mbind result_bind Py.bind].
  now rewrite first_scan_fold.
Qed.

Lemma first_labels_range (fs : filesystem) (root : string) (cmds : list string) :
  Forall (fun l => (l < length cmds)%nat)
    (concat (first_labels fs root <$> enumerate cmds)).
Proof.
  apply Forall_forall. intros l Hl.
  apply elem_of_concat in Hl as (ls & Hl & Hls).
  apply list_elem_of_fmap in Hls as ([i c] & -> & Hic).
  unfold first_labels in Hl. apply list_elem_of_fmap in Hl as (f & -> & _).
  cbn. unfold enumerate in Hic. apply list_elem_of_lookup in Hic as [j Hj].
  rewrite list_lookup_imap in Hj.
  destruct (cmds !! j) eqn:Hc; cbn in Hj; [|discriminate].
  injection Hj as <- <-. eapply lookup_lt_Some; eauto.
Qed.

Lemma first_files_labels_length (fs : filesystem) (root : string)
    (l : list (nat * string)) :
  length (concat (first_labels fs root <$> l))
  = length (concat (first_files fs root <$> l)).
Proof.
  induction l as [|ic l IH]; [reflexivity|].
  rewrite !fmap_cons. cbn [concat]. rewrite !length_app, IH.
  unfold first_labels, first_files. now rewrite !length_fmap.
Qed.
End FirstBuilder.

Lemma sorted_NoDup (names : list string) : NoDup names -> NoDup (sorted names).
Proof.
  intros Hnd. unfold sorted.
  now rewrite (merge_sort_Permutation str_le names).
Qed.

(** C5 (as amended).  binary_KWS.py builds one dict from the manifest and the
    constructor reads every label from it, so every sample's label is below
    [num_classes]; the dict sends a command to the position of its last
    occurrence and is a bijection onto [{0, ..., num_classes-1}] exactly when
    the manifest lists no command twice.  first.py labels by position in the
    sorted directory listing, which has no repeats: a bijection, with every
    label in range. *)
Theorem label_index_mapping {A : Type} `{Scalar A}
    (fs : filesystem) (root : string) (cmds names : list string)
    (tr : option (tensor A -> tensor A)) :
  fs !! root = Some names -> NoDup names ->
  (exists ds out,
     SpeechCommandsDataset.init (command_to_index cmds) fs root cmds tr
       = Ok (ds, out)
     /\ forall s, s ∈ SpeechCommandsDataset.samples ds ->
          (s.2 < num_classes cmds)%nat
          /\ exists command, command ∈ cmds
                             /\ command_to_index cmds !! command = Some s.2)
  /\ (forall c i, command_to_index cmds !! c = Some i <->
                  cmds !! i = Some c /\ c ∉ drop (S i) cmds)
  /\ (label_bijection (dict_label cmds) cmds (num_classes cmds) <-> NoDup cmds)
  /\ (exists ds,
        First.SpeechCommandsDataset.init fs root tr = Ok ds
        /\ First.SpeechCommandsDataset.commands ds = sorted names
        /\ label_bijection
             (position_label (First.SpeechCommandsDataset.commands ds))
             (First.SpeechCommandsDataset.commands ds)
             (length (First.SpeechCommandsDataset.commands ds))
        /\ Forall (fun l => (l < length (First.SpeechCommandsDataset.commands ds))%nat)
             (First.SpeechCommandsDataset.labels ds)
        /\ length (First.SpeechCommandsDataset.labels ds)
           = length (First.SpeechCommandsDataset.all_files ds)).
Proof.
  intros Hroot Hnd. split; [|split; [|split]].
  - eexists _, _. split; [apply init_spec|]. cbn [SpeechCommandsDataset.samples].
    intros s Hs. apply samples_of_elem in Hs as (command & f & Hc & Hl & _).
    split; [exact (proj1 (command_to_index_range cmds command _ Hl))|]. eauto.
  - apply command_to_index_lookup.
  - apply dict_label_bijection.
  - eexists. split; [exact (first_init_spec fs root names tr Hroot)|].
    cbn [First.SpeechCommandsDataset.commands First.SpeechCommandsDataset.labels
         First.SpeechCommandsDataset.all_files].
    split; [reflexivity|]. split; [|split].
    + apply position_label_bijection. now apply sorted_NoDup.
    + apply first_labels_range.
    + apply first_files_labels_length.
Qed.

Lemma concat_skip {Y} (f : string -> list Y) (c : string) (l : list string) :
  f c = [] -> concat (f <$> l) = concat (f <$> filter (fun c' => c' <> c) l).
Proof.
  intros Hc. induction l as [|x l IH]; [reflexivity|].
  rewrite fmap_cons. cbn [concat].
  destruct (decide (x = c)) as [->|Hne].
  - rewrite filter_cons_False by tauto. now rewrite Hc.
  - rewrite filter_cons_True by assumption. rewrite fmap_cons. cbn [concat].
    now rewrite IH.
Qed.

(** first.py takes its vocabulary from the listing itself; an entry that is
    not a directory keeps its index, gets no sample, and nothing is printed
    (the constructor has no [print]). *)
Lemma first_non_directory_skipped {A : Type} `{Scalar A}
    (fs : filesystem) (root : string) (names : list string)
    (tr : option (tensor A -> tensor A)) (i : nat) (c : string) :
  fs !! root = Some names ->
  sorted names !! i = Some c ->
  isdir fs (path_join root c) = false ->
  exists ds, First.SpeechCommandsDataset.init fs root tr = Ok ds
             /\ First.SpeechCommandsDataset.commands ds !! i = Some c
             /\ i ∉ First.SpeechCommandsDataset.labels ds.
Proof.
  intros Hroot Hi Hdir. eexists. split; [exact (first_init_spec fs root names tr Hroot)|].
  cbn [First.SpeechCommandsDataset.commands First.SpeechCommandsDataset.labels].
  split; [exact Hi|]. intros Hin.
  apply elem_of_concat in Hin as (ls & Hl & Hls).
  apply list_elem_of_fmap in Hls as ([j c'] & -> & Hjc).
  unfold first_labels in Hl. apply list_elem_of_fmap in Hl as (f & Hij & Hf).
  cbn in Hij, Hf. subst j.
  unfold enumerate in Hjc. apply list_elem_of_lookup in Hjc as [k Hk].
  rewrite list_lookup_imap in Hk.
  destruct (sorted names !! k) as [x|] eqn:Hx; cbn in Hk; [|discriminate].
  injection Hk as <- <-. rewrite Hi in Hx. injection Hx as <-.
  unfold wav_files in Hf. unfold isdir in Hdir.
  destruct (fs !! path_join root c); [discriminate|]. now apply elem_of_nil in Hf.
Qed.

(** C9 (as amended).  In binary_KWS.py, when the directory of a listed
    command is missing, the constructor still returns a dataset: the line
    [Attenzione: La cartella <directory> non esiste.] is among the lines
    printed, no sample carries that command's label, and the samples are
    those of the other commands.  In first.py the vocabulary is the listing
    of the root itself: an entry that is not a directory stays in the
    vocabulary under its index, no file is labelled with that index, and the
    constructor, which prints nothing at all, returns the dataset. *)
Theorem missing_directory_warning {A : Type} `{Scalar A}
    (fs : filesystem) (root : string) (tr : option (tensor A -> tensor A)) :
  (forall (cmds : list string) (c : string),
      c ∈ cmds -> isdir fs (path_join root c) = false ->
      exists ds out,
        SpeechCommandsDataset.init (command_to_index cmds) fs root cmds tr
          = Ok (ds, out)
        /\ "Attenzione: La cartella " +:+ path_join root c +:+ " non esiste." ∈ out
        /\ (forall s, s ∈ SpeechCommandsDataset.samples ds ->
                      command_to_index cmds !! c <> Some s.2)
        /\ SpeechCommandsDataset.samples ds
           = concat (samples_of (command_to_index cmds) fs root
                       <$> filter (fun c' => c' <> c) cmds))
  /\ (forall (names : list string) (i : nat) (c : string),
        fs !! root = Some names -> sorted names !! i = Some c ->
        isdir fs (path_join root c) = false ->
        exists ds,
          First.SpeechCommandsDataset.init fs root tr = Ok ds
          /\ First.SpeechCommandsDataset.commands ds !! i = Some c
          /\ i ∉ First.SpeechCommandsDataset.labels ds).
Proof.
  split.
  - intros cmds c Hc Hdir. eexists _, _. split; [apply init_spec|].
    cbn [SpeechCommandsDataset.samples].
    assert (Hnone : fs !! path_join root c = None).
    { unfold isdir in Hdir. now destruct (fs !! path_join root c). }
    split; [|split].
    + apply elem_of_concat. exists [warning (path_join root c)].
      split; [now constructor|]. apply list_elem_of_fmap. exists c.
      split; [|assumption]. unfold warnings_of. now rewrite Hdir.
    + intros s Hs Hlabel.
      apply samples_of_elem in Hs as (command & f & _ & Hl & Hf & _).
      apply command_to_index_range in Hlabel as [_ Hi].
      apply command_to_index_range in Hl as [_ Hj].
      assert (command = c) as -> by congruence.
      unfold wav_files in Hf. rewrite Hnone in Hf. now apply elem_of_nil in Hf.
    + assert (Hnil : samples_of (command_to_index cmds) fs root c = []).
      { unfold samples_of, wav_files. rewrite Hnone.
        now destruct (command_to_index cmds !! c). }
      now apply concat_skip.
  - intros names i c. apply first_non_directory_skipped.
Qed.

Lemma label_index_mapping_witness :
  example_fs !! "speech_commands" = Some ["yes"; "no"; "README.md"]
  /\ NoDup ["yes"; "no"; "README.md"]
  /\ (exists ds out,
        SpeechCommandsDataset.init (A := F32.t) (command_to_index example_commands)
          example_fs "speech_commands" example_commands None = Ok (ds, out)
        /\ forall s, s ∈ SpeechCommandsDataset.samples ds ->
             (s.2 < num_classes example_commands)%nat
             /\ exists command, command ∈ example_commands
                  /\ command_to_index example_commands !! command = Some s.2).
Proof.
  assert (H1 : example_fs !! "speech_commands" = Some ["yes"; "no"; "README.md"])
    by (vm_compute; reflexivity).
  assert (H2 : NoDup ["yes"; "no"; "README.md"])
    by (apply (bool_decide_unpack _); vm_compute; exact I).
  split; [exact H1|]. split; [exact H2|].
  exact (proj1 (label_index_mapping (A := F32.t) example_fs "speech_commands"
                  example_commands ["yes"; "no"; "README.md"] None H1 H2)).
Defined.

(** C5 as stated fails in binary_KWS.py: a manifest that lists "yes" twice
    gives three classes, but no command is mapped to index 0. *)
Lemma duplicate_command_counterexample :
  num_classes ["yes"; "no"; "yes"] = 3%nat
  /\ command_to_index ["yes"; "no"; "yes"] !! "yes" = Some 2%nat
  /\ command_to_index ["yes"; "no"; "yes"] !! "no" = Some 1%nat
  /\ (forall c, command_to_index ["yes"; "no"; "yes"] !! c <> Some 0%nat)
  /\ ~ label_bijection (dict_label ["yes"; "no"; "yes"]) ["yes"; "no"; "yes"]
         (num_classes ["yes"; "no"; "yes"]).
Proof.
  split; [reflexivity|]. split; [vm_compute; reflexivity|].
  split; [vm_compute; reflexivity|].
  assert (Hdup : ~ NoDup ["yes"; "no"; "yes"]).
  { intros Hnd. apply NoDup_cons in Hnd as [Hn _]. apply Hn.
    right. left. }
  split.
  - intros c Hc. apply command_to_index_lookup in Hc as [Hl Hd].
    cbn in Hl. injection Hl as <-. apply Hd. cbn. right. left.
  - intros Hb. now apply dict_label_bijection in Hb.
Qed.

Lemma missing_directory_warning_witness :
  (exists ds out,
     SpeechCommandsDataset.init (A := F32.t) (command_to_index example_commands)
       example_fs "speech_commands" example_commands None = Ok (ds, out)
     /\ "Attenzione: La cartella speech_commands/up non esiste." ∈ out
     /\ (forall s, s ∈ SpeechCommandsDataset.samples ds ->
           command_to_index example_commands !! "up" <> Some s.2))
  /\ (exists ds,
        First.SpeechCommandsDataset.init (A := F32.t) example_fs
          "speech_commands" None = Ok ds
        /\ First.SpeechCommandsDataset.commands ds !! 0%nat = Some "README.md"
        /\ 0%nat ∉ First.SpeechCommandsDataset.labels ds).
Proof.
  destruct (missing_directory_warning (A := F32.t) example_fs "speech_commands"
              None) as [Hbinary Hfirst].
  split.
  - destruct (Hbinary example_commands "up") as (ds & out & Hinit & Hw & Hs & _).
    + right; left.
    + vm_compute; reflexivity.
    + exists ds, out. auto.
  - apply (Hfirst ["yes"; "no"; "README.md"] 0%nat "README.md").
    + vm_compute; reflexivity.
    + vm_compute; reflexivity.
    + vm_compute; reflexivity.
Defined.

(** C9 as stated fails for first.py.  On the small directory the entry
    [README.md] is no directory: binary_KWS.py, given it as a command, prints
    its warning; first.py returns the dataset and nothing else, with
    [README.md] as command 0 and no clip labelled 0. *)
Lemma first_silent_skip_counterexample :
  isdir example_fs (path_join "speech_commands" "README.md") = false
  /\ SpeechCommandsDataset.init (A := F32.t)
       (command_to_index ["README.md"; "no"; "yes"]) example_fs
       "speech_commands" ["README.md"; "no"; "yes"] None
     = Ok (SpeechCommandsDataset.Build "speech_commands"
             ["README.md"; "no"; "yes"] None
             [("speech_commands/no/c.wav", 1%nat);
              ("speech_commands/yes/a.wav", 2%nat);
              ("speech_commands/yes/b.wav", 2%nat)],
           ["Attenzione: La cartella speech_commands/README.md non esiste."])
  /\ First.SpeechCommandsDataset.init (A := F32.t) example_fs
       "speech_commands" None
     = Ok (First.SpeechCommandsDataset.Build "speech_commands"
             ["README.md"; "no"; "yes"]
             ["speech_commands/no/c.wav"; "speech_commands/yes/a.wav";
              "speech_commands/yes/b.wav"]
             [1; 2; 2]%nat None).
Proof. repeat split; vm_compute; reflexivity. Qed.

(** The constructor on the small directory, run. *)
Example init_example :
  SpeechCommandsDataset.init (A := F32.t) (command_to_index example_commands)
    example_fs "speech_commands" example_commands None
  = Ok (SpeechCommandsDataset.Build "speech_commands" example_commands None
          [("speech_commands/yes/a.wav", 0%nat);
           ("speech_commands/yes/b.wav", 0%nat);
           ("speech_commands/no/c.wav", 2%nat)],
        ["Attenzione: La cartella speech_commands/up non esiste."]).
Proof. vm_compute. reflexivity. Qed.

(** first.py on the same directory: the stray file takes index 0 in the
    vocabulary and is skipped without a word. *)
Example first_init_example :
  First.SpeechCommandsDataset.init (A := F32.t) example_fs "speech_commands" None
  = Ok (First.SpeechCommandsDataset.Build "speech_commands"
          ["README.md"; "no"; "yes"]
          ["speech_commands/no/c.wav"; "speech_commands/yes/a.wav";
           "speech_commands/yes/b.wav"]
          [1; 2; 2]%nat None).
Proof. vm_compute. reflexivity. Qed.

(** ** Sums over the reals *)

Section RealSumLemmas.
Local Open Scope R_scope.

Lemma foldl_Rplus (a : R) (l : list R) : foldl Rplus a l = a + Rsum l.
Proof.
  revert a. induction l as [|x l IH]; intros a; cbn.
  - lra.
  - rewrite IH. unfold Rsum. lra.
Qed.

Lemma sum_Rsum (l : list R) : torch.sum l = Rsum l.
Proof. unfold torch.sum. cbn. rewrite foldl_Rplus. lra. Qed.
End RealSumLemmas.

(** ** Per-sample normalization *)





Lemma zero_over_eps : F32.div (S754_zero false) eps32 = S754_zero false.
Proof. reflexivity. Qed.




(** A clip of the constant [0.1] whose mean the framework returns one unit
    in the last place too high, with a zero standard deviation: every
    element comes out as a small negative number, not as zero. *)
Example normalize_constant_clip :
  let x := S754_finite false 13421773 (-27) in
  let m := S754_finite false 13421774 (-27) in
  SpeechCommandsDataset.normalize (fun _ => m) (fun _ => S754_zero false)
    (Tensor [4%nat] (replicate 4 x))
  = Tensor [4%nat] (replicate 4 (S754_finite true 12800000 (-34))).
Proof. vm_compute. reflexivity. Qed.


(** ** Evaluation *)

Lemma count_eq_agreements (p l : list nat) : count_eq p l = agreements p l.
Proof.
  unfold count_eq. revert l. induction p as [|x p IH]; intros [|y l]; try reflexivity.
  cbn [zip zip_with agreements].
  destruct (Nat.eqb_spec x y) as [->|Hne].
  - rewrite filter_cons_True by reflexivity. cbn [length]. now rewrite IH.
  - rewrite filter_cons_False by exact Hne. now rewrite IH.
Qed.


Lemma expand_full {X} (n : nat) (l : list X) : length l = n -> expand n l = l.
Proof. intros <-. destruct l as [|x [|y l]]; reflexivity. Qed.

Lemma concat_singletons {X Y} (f : X -> Y) (l : list X) :
  concat ((fun x => [f x]) <$> l) = f <$> l.
Proof. induction l as [|x l IH]; [reflexivity|]. cbn. now f_equal. Qed.

Section EvaluationClaims.
Context {A : Type} `{Scalar A}.
Variable model : tensor A -> result (tensor A).

(** With nothing after dimension 1, an example's entries along it are its
    row. *)
Lemma along_dim1_row (c : nat) (block : list A) :
  (length block <= c)%nat -> along_dim1 1 c block 0 = block.
Proof.
  unfold along_dim1. revert block. induction c as [|c IH]; intros block Hl.
  - destruct block; [reflexivity | cbn in Hl; lia].
  - cbn [chunks]. destruct block as [|x block]; cbn.
    + clear. induction c as [|c IHc]; [reflexivity | exact IHc].
    + f_equal. rewrite drop_0. apply IH. cbn in Hl. lia.
Qed.

Lemma chunks_length_le (n k : nat) (l : list A) :
  Forall (fun r => (length r <= n)%nat) (chunks n k l).
Proof.
  revert l. induction k as [|k IH]; intros l; cbn; constructor; [|apply IH].
  rewrite length_take. lia.
Qed.

(** On a matrix of scores [torch.max(outputs, 1)] keeps one index per row. *)
Lemma max_dim1_rows (outputs : tensor A) (b c : nat) :
  shape outputs = [b; c] -> c <> 0%nat ->
  max_dim1 outputs
  = Ok (Tensor [b] (argmax_row <$> chunks c b (data outputs))).
Proof.
  intros Hs Hc. unfold max_dim1. rewrite Hs.
  rewrite bool_decide_eq_false_2 by exact Hc.
  cbn [prod_list foldr seq fmap list_fmap]. rewrite Nat.mul_1_r.
  do 2 f_equal.
  rewrite (concat_singletons (fun block => argmax_row (along_dim1 1 c block 0))).
  apply Forall_fmap_ext_1. eapply Forall_impl; [apply chunks_length_le|].
  intros r Hr. cbn. now rewrite along_dim1_row.
Qed.

Lemma eq_sum_rows (predicted labels : list nat) :
  length predicted = length labels ->
  eq_sum (Tensor [length predicted] predicted) labels
  = Ok (agreements predicted labels).
Proof.
  intros Hl. unfold eq_sum. cbn [shape last default from_option].
  unfold Datatypes.id.
  rewrite bool_decide_eq_true_2 by (left; exact Hl).
  unfold torch.rows. cbn [shape last removelast prod_list foldr chunks data].
  rewrite firstn_all. cbn [fmap list_fmap sum_list sum_list_with].
  rewrite (expand_full (length labels) predicted) by exact Hl.
  rewrite (expand_full (length predicted) labels) by (symmetry; exact Hl).
  rewrite count_eq_agreements. unfold Datatypes.id. f_equal. lia.
Qed.

Lemma eval_batch_spec (st : Z * Z) (batch : tensor A * list nat) :
  well_served model batch ->
  eval_batch model st batch
  = Ok ((st.1 + Z.of_nat (correct_of model batch))%Z,
        (st.2 + Z.of_nat (length batch.2))%Z).
Proof.
  intros (outputs & c & Hm & Hs & Hc).
  unfold eval_batch, correct_of, predicted_of. rewrite Hm.
  cbn [mbind result_bind Py.bind]. rewrite (max_dim1_rows outputs _ c Hs Hc).
  rewrite Hs. cbn [mbind result_bind Py.bind].
  set (predicted := argmax_row <$> chunks c (length batch.2) (data outputs)).
  assert (Hl : length predicted = length batch.2)
    by (unfold predicted; now rewrite length_fmap, chunks_length).
  rewrite <- Hl at 1. rewrite (eq_sum_rows predicted batch.2 Hl).
  reflexivity.
Qed.

Lemma eval_fold_spec (loader : list (tensor A * list nat)) (st : Z * Z) :
  Forall (well_served model) loader ->
  foldM (eval_batch model) st loader
  = Ok ((st.1 + Z.of_nat (total_correct model loader))%Z,
        (st.2 + Z.of_nat (total_examples loader))%Z).
Proof.
  intros Hall. revert st. induction Hall as [|b loader Hb _ IH]; intros st.
  - cbn. rewrite !Z.add_0_r. now destruct st.
  - cbn [foldM]. rewrite (eval_batch_spec st b Hb). cbn [Py.bind].
    rewrite IH. cbn [fst snd]. unfold total_correct, total_examples.
    rewrite !fmap_cons. cbn [sum_list sum_list_with]. unfold Datatypes.id.
    f_equal. f_equal; lia.
Qed.


(** With no held-out example the division raises. *)
Lemma evaluate_empty : evaluate model [] = Raise ZeroDivisionError.
Proof. reflexivity. Qed.
End EvaluationClaims.






Section Binary64.
Local Open Scope Z_scope.




End Binary64.

Section Binary64Percent.
Local Open Scope Z_scope.




End Binary64Percent.

(** On small integers [F64.nearest] is the IEEE quotient of the two
    integers as binary64 values. *)
Example nearest_is_the_ieee_quotient :
  let pairs := list_prod (Pos.of_nat <$> seq 1 40) (Pos.of_nat <$> seq 1 40) in
  (fun nd : positive * positive => F64.nearest nd.1 nd.2) <$> pairs
  = (fun nd : positive * positive =>
       SFdiv F64.prec F64.emax
         (binary_normalize F64.prec F64.emax (Zpos nd.1) 0 false)
         (binary_normalize F64.prec F64.emax (Zpos nd.2) 0 false)) <$> pairs.
Proof. vm_compute. reflexivity. Qed.




(** One right out of 4000: the quotient is the binary64 just above [0.025],
    and the line shows [0.03]. *)
Example accuracy_one_in_4000 :
  (acc ← true_div (100 * 1) 4000; Ok (report acc))
  = Ok "Accuratezza del modello sul test set: 0.03%".
Proof. vm_compute. reflexivity. Qed.

(** ** The network as the evaluated model *)

(** A collated batch carries one leading entry per label. *)
Lemma collate_leading {A} (items : list (tensor A * nat))
    (features : tensor A) (labels : list nat) :
  collate items = Ok (features, labels) ->
  shape features !! 0%nat = Some (length labels) /\ labels = items.*2.
Proof.
  unfold collate. destruct items as [|first items]; [discriminate|].
  destruct (forallb _ _); [|discriminate].
  intros [= <- <-]. cbn [shape]. split; [|reflexivity].
  change (Some (length (first :: items))
          = Some (length (snd <$> first :: items))).
  now rewrite length_fmap.
Qed.

Section NetworkShape.
Context {A : Type} `{Scalar A}.



End NetworkShape.

Example tiny_evaluation :
  evaluate (NeuralNetworkSimplified.forward tiny_net) tiny_loader
  = Ok "Accuratezza del modello sul test set: 50.00%".
Proof. vm_compute. reflexivity. Qed.


(** The hypothesis of C8 is needed: a model that answers with a third
    dimension gets two indices per example from [torch.max(outputs, 1)], the
    comparison with the labels broadcasts, and more predictions than examples
    can count as right. *)
Example accuracy_above_100 :
  evaluate (A := F32.t)
    (fun _ => Ok (Tensor [2; 2; 2]%nat
                    [F32.of_Z 5; F32.of_Z 1; F32.of_Z 3; F32.of_Z 2;
                     F32.of_Z 5; F32.of_Z 1; F32.of_Z 3; F32.of_Z 2]))
    [(Tensor [2; 1]%nat [F32.zero; F32.zero], [0%nat; 1%nat])]
  = Ok "Accuratezza del modello sul test set: 200.00%".
Proof. vm_compute. reflexivity. Qed.

(** Over the reals the index kept by the scan is an argmax of the row. *)
Lemma argmax_scan_max (l p : list R) (best : R) (best_i : nat) :
  (p ++ l) !! best_i = Some best ->
  (forall w, w ∈ p -> (w <= best)%R) ->
  exists v, (p ++ l) !! argmax_scan best best_i (length p) l = Some v
            /\ forall w, w ∈ p ++ l -> (w <= v)%R.
Proof.
  revert p best best_i. induction l as [|x l IH]; intros p best best_i Hb Hp.
  - cbn. exists best. split; [exact Hb|]. rewrite app_nil_r. exact Hp.
  - cbn [argmax_scan]. cbn [s_geb R_scalar]. unfold Real.geb at 1.
    replace (p ++ x :: l) with ((p ++ [x]) ++ l) in * by now rewrite <- app_assoc.
    replace (S (length p)) with (length (p ++ [x])) by (rewrite length_app; cbn; lia).
    destruct (Rle_dec x best) as [Hle|Hgt].
    + apply IH; [exact Hb|]. intros w Hw.
      apply elem_of_app in Hw as [Hw|Hw]; [now apply Hp|].
      apply list_elem_of_singleton in Hw. now subst.
    + assert (Hnan : isnan x = false).
      { unfold isnan. cbn [s_geb R_scalar]. unfold Real.geb.
        destruct (Rle_dec x x) as [_|Hn]; [reflexivity|]. exfalso. apply Hn. lra. }
      rewrite Hnan. apply IH.
      * rewrite lookup_app_l by (rewrite length_app; cbn; lia).
        rewrite lookup_app_r by lia. now rewrite Nat.sub_diag.
      * intros w Hw. apply elem_of_app in Hw as [Hw|Hw].
        -- specialize (Hp w Hw). lra.
        -- apply list_elem_of_singleton in Hw. subst. lra.
Qed.

Lemma argmax_row_max (r : list R) :
  r <> [] ->
  exists v, r !! argmax_row r = Some v /\ forall w, w ∈ r -> (w <= v)%R.
Proof.
  destruct r as [|x r]; [congruence|]. intros _. unfold argmax_row.
  apply (argmax_scan_max (x :: r) [] x 0%nat); [reflexivity|].
  intros w Hw. now apply elem_of_nil in Hw.
Qed.

(** ** Weight export *)

Section ExportClaims.
Context {A : Type} `{Scalar A}.
Variable fmt : A -> string.

(** Whatever the delimiter, a flattened tensor is written as a column. *)
Lemma savetxt_flatten (t : tensor A) (delimiter : string) :
  First.savetxt fmt (torch.flatten t) delimiter = Ok (lines fmt (data t)).
Proof.
  unfold First.savetxt, torch.flatten, First.savetxt_rows, lines.
  cbn [shape data]. rewrite <- list_fmap_compose. reflexivity.
Qed.

Lemma dict_set_fresh {V} (d : list (string * V)) (key : string) (value : V) :
  key ∉ d.*1 -> First.dict_set d key value = d ++ [(key, value)].
Proof.
  induction d as [|[k v] d IH]; intros Hk; [reflexivity|].
  cbn [First.dict_set fst]. rewrite fmap_cons in Hk. cbn [fst] in Hk.
  apply not_elem_of_cons in Hk as [Hne Hk].
  destruct (String.eqb_spec k key) as [->|_]; [congruence|].
  cbn. now rewrite IH.
Qed.

Lemma weights_dict (params : list (string * tensor A)) :
  NoDup params.*1 ->
  foldl (fun d (p : string * tensor A) => First.dict_set d p.1 p.2) [] params
  = params.
Proof.
  induction params as [|p params IH] using rev_ind; intros Hnd; [reflexivity|].
  rewrite fmap_app in Hnd. apply NoDup_app in Hnd as (Hnd & Hdisj & _).
  rewrite foldl_snoc, IH by assumption.
  rewrite dict_set_fresh; [now destruct p|].
  intros Hin. apply (Hdisj _ Hin). cbn. left.
Qed.

Lemma export_fold (params : list (string * tensor A))
    (st : gmap string string * list string) :
  foldM
    (fun (st : gmap string string * list string) (p : string * tensor A) =>
       let filename := First.export_filename p.1 in
       text ← First.savetxt fmt (torch.flatten p.2) ",";
       Ok (<[filename := text]> st.1,
           st.2 ++ [First.export_message p.1 filename]))
    st params
  = Ok (written fmt st.1 params,
        st.2 ++ ((fun p => First.export_message p.1 (First.export_filename p.1))
                   <$> params)).
Proof.
  revert st. induction params as [|p params IH]; intros st.
  - cbn. rewrite app_nil_r. now destruct st.
  - cbn [foldM]. rewrite savetxt_flatten.
    cbn [mbind result_bind Py.bind]. rewrite IH. cbn [fst snd].
    rewrite fmap_cons, <- app_assoc. reflexivity.
Qed.

Lemma export_spec (params : list (string * tensor A))
    (files : gmap string string) :
  NoDup params.*1 ->
  First.export fmt params files
  = Ok (written fmt files params,
        (fun p => First.export_message p.1 (First.export_filename p.1))
          <$> params).
Proof.
  intros Hnd. unfold First.export. rewrite weights_dict by assumption.
  now rewrite export_fold.
Qed.
End ExportClaims.

(** Row [i], column [j] of a stored matrix sits at offset [i * n + j]. *)
Lemma chunks_lookup {X} (n k : nat) (l : list X) (i j : nat) (r : list X) :
  (j < n)%nat ->
  chunks n k l !! i = Some r -> r !! j = l !! (i * n + j)%nat.
Proof.
  intros Hj. revert l i. induction k as [|k IH]; intros l i Hr; [discriminate|].
  destruct i as [|i]; cbn in Hr.
  - injection Hr as <-. now rewrite lookup_take_lt.
  - rewrite (IH _ _ Hr), lookup_drop. f_equal. lia.
Qed.

(** C6, at a 2-by-2 weight.  The file is named after the parameter with dots
    turned into underscores and holds the four numbers in row-major order,
    but one per line: the comma handed to [np.savetxt] is never written,
    because the array is flattened first and a 1-D array is saved as a
    column. *)
Theorem export_one_number_per_line {A : Type} `{Scalar A}
    (fmt : A -> string) (a b c d : A) (files : gmap string string) :
  First.export fmt [("model.4.weight", Tensor [2; 2]%nat [a; b; c; d])] files
  = Ok (<["model_4_weight.txt" :=
            (fmt a +:+ First.newline) +:+ (fmt b +:+ First.newline)
              +:+ (fmt c +:+ First.newline) +:+ (fmt d +:+ First.newline)]> files,
        ["Pesi del layer 'model.4.weight' salvati in 'model_4_weight.txt'"]).
Proof. reflexivity. Qed.

(** The export of a bias [0.5, -1.25], as the text on disk. *)
Example export_bias_example :
  First.export First.format_18e
    [("model.4.bias",
      Tensor [2%nat] [F32.div (F32.of_Z 1) (F32.of_Z 2);
                      F32.div (F32.of_Z (-5)) (F32.of_Z 4)])] ∅
  = Ok ({["model_4_bias.txt" :=
            "5.000000000000000000e-01" +:+ First.newline
              +:+ "-1.250000000000000000e+00" +:+ First.newline]},
        ["Pesi del layer 'model.4.bias' salvati in 'model_4_bias.txt'"]).
Proof. vm_compute. reflexivity. Qed.

(** The parameters of the script's network, [hidden_sizes = [128, 64]], and
    the files they go to. *)
Example export_filenames_example (l : nat -> nat -> First.MLP.layer (A := F32.t)) :
  (forall i o, exists w b, l i o = First.MLP.Linear w b) ->
  (fun p => First.export_filename p.1)
    <$> First.MLP.named_parameters (First.MLP.init l 3240 [128; 64]%nat 35)
  = ["model_0_weight.txt"; "model_0_bias.txt"; "model_2_weight.txt";
     "model_2_bias.txt"; "model_4_weight.txt"; "model_4_bias.txt"].
Proof.
  intros Hl. unfold First.MLP.init, First.MLP.named_parameters.
  cbn [First.MLP.hidden_layers fst snd app First.MLP.model imap].
  destruct (Hl 3240 128)%nat as (w0 & b0 & ->).
  destruct (Hl 128 64)%nat as (w1 & b1 & ->).
  destruct (Hl 64 35)%nat as (w2 & b2 & ->).
  vm_compute. reflexivity.
Qed.

(** The same export with any other delimiter writes the same files. *)
Lemma export_ignores_delimiter {A : Type} `{Scalar A}
    (fmt : A -> string) (t : tensor A) (delimiter : string) :
  First.savetxt fmt (torch.flatten t) delimiter
  = First.savetxt fmt (torch.flatten t) ",".
Proof. now rewrite !savetxt_flatten. Qed.

(* ================================================================== *)
(** * Further properties of the two scripts *)
(* ================================================================== *)

(** ** The constructors: errors, counts, file names *)

Lemma foldM_app {S B} (f : S -> B -> result S) (s : S) (l1 l2 : list B) :
  foldM f s (l1 ++ l2) = Py.bind (foldM f s l1) (fun s' => foldM f s' l2).
Proof.
  revert s. induction l1 as [|x l1 IH]; intros s; [reflexivity|].
  cbn [app foldM]. destruct (f s x) as [s'|e]; cbn [Py.bind]; [apply IH|reflexivity].
Qed.

Section BuilderErrors.
Context {A : Type} `{Scalar A}.

Lemma scan_file_fold_missing (c2i : gmap string nat) (command dir : string)
    (names : list string) (st : scan) :
  c2i !! command = None ->
  foldM (SpeechCommandsDataset.scan_file c2i command dir) st names
  = match filter is_wav names with
    | [] => Ok st
    | _ :: _ => Raise (KeyError command)
    end.
Proof.
  intros Hnone. induction names as [|x names IH]; [reflexivity|].
  cbn [foldM]. unfold SpeechCommandsDataset.scan_file at 1.
  unfold dict_getitem. rewrite Hnone.
  destruct (endswith x ".wav") eqn:Hx; cbn [mbind result_bind Py.bind].
  - now rewrite filter_cons_True by exact Hx.
  - rewrite filter_cons_False by (unfold is_wav; congruence). exact IH.
Qed.

Lemma samples_of_length (fs : filesystem) (root : string) (cmds : list string)
    (c : string) :
  c ∈ cmds ->
  length (samples_of (command_to_index cmds) fs root c)
  = length (wav_files fs (path_join root c)).
Proof.
  intros Hc. unfold samples_of.
  destruct (command_to_index_dom cmds c Hc) as [label ->].
  apply length_fmap.
Qed.
End BuilderErrors.

(** X1.  The constructor of binary_KWS.py reads labels from the module-level
    dict: when the list it is given holds a command the dict lacks, and the
    commands before it are in the dict, it raises [KeyError] for that command
    as soon as the command's directory holds a [.wav] file. *)
Theorem init_key_error {A : Type} `{Scalar A}
    (c2i : gmap string nat) (fs : filesystem) (root : string)
    (before after : list string) (c : string)
    (tr : option (tensor A -> tensor A)) :
  (forall x, x ∈ before -> is_Some (c2i !! x)) ->
  c2i !! c = None ->
  wav_files fs (path_join root c) <> [] ->
  SpeechCommandsDataset.init c2i fs root (before ++ c :: after) tr
  = Raise (KeyError c).
Proof.
  intros Hbefore Hnone Hwav. unfold SpeechCommandsDataset.init.
  rewrite foldM_app, (scan_command_fold c2i fs root before _ Hbefore).
  cbn [Py.bind foldM]. unfold SpeechCommandsDataset.scan_command at 1.
  unfold wav_files in Hwav. unfold isdir, listdir.
  destruct (fs !! path_join root c) as [names|]; [|congruence].
  cbn [mbind result_bind Py.bind].
  rewrite (scan_file_fold_missing c2i c _ names _ Hnone).
  destruct (filter is_wav names); [congruence|reflexivity].
Qed.

Lemma init_key_error_witness :
  SpeechCommandsDataset.init (A := F32.t) (command_to_index ["yes"]) example_fs
    "speech_commands" (["yes"] ++ "no" :: ["up"]) None
  = Raise (KeyError "no").
Proof.
  apply init_key_error.
  - intros x Hx. apply list_elem_of_singleton in Hx as ->. vm_compute. eauto.
  - vm_compute. reflexivity.
  - vm_compute. discriminate.
Defined.

(** Suffixes survive prefixing. *)
Lemma string_length_app (a b : string) :
  String.length (a +:+ b) = (String.length a + String.length b)%nat.
Proof. induction a as [|c a IH]; simpl; [reflexivity | f_equal; exact IH]. Qed.

Lemma substring_app_skip (a s : string) (k m : nat) :
  String.substring (String.length a + k) m (a +:+ s) = String.substring k m s.
Proof. induction a as [|c a IH]; simpl; [reflexivity | exact IH]. Qed.

Lemma endswith_app (a s suffix : string) :
  endswith s suffix = true -> endswith (a +:+ s) suffix = true.
Proof.
  unfold endswith. intros Hs. apply andb_true_iff in Hs as [Hlen Heq].
  apply Nat.leb_le in Hlen. rewrite string_length_app.
  apply andb_true_iff. split; [apply Nat.leb_le; lia|].
  replace (String.length a + String.length s - String.length suffix)%nat
    with (String.length a + (String.length s - String.length suffix))%nat by lia.
  now rewrite substring_app_skip.
Qed.

Lemma endswith_path_join (d f suffix : string) :
  endswith f suffix = true -> endswith (path_join d f) suffix = true.
Proof.
  intros Hf. unfold path_join.
  destruct (startswith f "/"); [exact Hf|].
  destruct (_ || _); [now apply endswith_app|].
  apply endswith_app. now apply (endswith_app "/").
Qed.

Lemma wav_files_is_wav (fs : filesystem) (dir f : string) :
  f ∈ wav_files fs dir -> endswith f ".wav" = true.
Proof.
  unfold wav_files. destruct (fs !! dir); [|intros Hf; now apply elem_of_nil in Hf].
  intros Hf. apply list_elem_of_filter in Hf as [Hf _]. exact Hf.
Qed.

(** X2.  Both constructors collect only files whose name ends in [.wav]
    (case-sensitively): every path stored by binary_KWS.py and by first.py
    ends in [.wav]. *)
Theorem collected_paths_end_in_wav {A : Type} `{Scalar A}
    (fs : filesystem) (root : string) (cmds : list string)
    (tr : option (tensor A -> tensor A)) :
  (forall ds out s,
      SpeechCommandsDataset.init (command_to_index cmds) fs root cmds tr
        = Ok (ds, out) ->
      s ∈ SpeechCommandsDataset.samples ds -> endswith s.1 ".wav" = true)
  /\ (forall ds p,
        First.SpeechCommandsDataset.init fs root tr = Ok ds ->
        p ∈ First.SpeechCommandsDataset.all_files ds -> endswith p ".wav" = true).
Proof.
  split.
  - intros ds out s Hinit Hs. rewrite init_spec in Hinit.
    injection Hinit as <- _. cbn [SpeechCommandsDataset.samples] in Hs.
    apply samples_of_elem in Hs as (command & f & _ & _ & Hf & ->).
    apply endswith_path_join. eapply wav_files_is_wav. exact Hf.
  - intros ds p Hinit Hp.
    destruct (fs !! root) as [names|] eqn:Hroot;
      [|unfold First.SpeechCommandsDataset.init, listdir in Hinit;
        rewrite Hroot in Hinit; discriminate].
    rewrite (first_init_spec fs root names tr Hroot) in Hinit.
    injection Hinit as <-. cbn [First.SpeechCommandsDataset.all_files] in Hp.
    apply elem_of_concat in Hp as (l & Hp & Hl).
    apply list_elem_of_fmap in Hl as (ic & -> & _).
    unfold first_files in Hp. apply list_elem_of_fmap in Hp as (f & -> & Hf).
    apply endswith_path_join. eapply wav_files_is_wav. exact Hf.
Qed.

Lemma concat_length_sum {X} (ls : list (list X)) :
  length (concat ls) = sum_list (length <$> ls).
Proof.
  induction ls as [|l ls IH]; [reflexivity|].
  rewrite fmap_cons. cbn [concat sum_list sum_list_with].
  rewrite length_app, IH. reflexivity.
Qed.

(** X3.  The dataset built by binary_KWS.py holds one sample per [.wav] file
    of every listed command, listed once per occurrence of the command in the
    manifest (a command listed twice has its clips twice), and the
    constructor prints one warning per listed command without a directory. *)
Theorem dataset_length {A : Type} `{Scalar A}
    (fs : filesystem) (root : string) (cmds : list string)
    (tr : option (tensor A -> tensor A)) :
  exists ds out,
    SpeechCommandsDataset.init (command_to_index cmds) fs root cmds tr = Ok (ds, out)
    /\ SpeechCommandsDataset.len ds
       = sum_list ((fun c => length (wav_files fs (path_join root c))) <$> cmds)
    /\ length out
       = length (filter (fun c => isdir fs (path_join root c) = false) cmds).
Proof.
  eexists _, _. split; [apply init_spec|].
  unfold SpeechCommandsDataset.len. cbn [SpeechCommandsDataset.samples]. split.
  - rewrite concat_length_sum, <- list_fmap_compose. f_equal.
    apply list_fmap_ext. intros i c Hc. cbn.
    apply samples_of_length. eapply list_elem_of_lookup_2. exact Hc.
  - induction cmds as [|c cmds' IH]; [reflexivity|].
    rewrite fmap_cons. cbn [concat]. rewrite length_app, IH.
    unfold warnings_of at 1.
    destruct (isdir fs (path_join root c)) eqn:Hd.
    + rewrite filter_cons_False by congruence. reflexivity.
    + rewrite filter_cons_True by exact Hd. reflexivity.
Qed.

(** ** Indexing a dataset *)

Lemma py_getitem_out_of_range {X} (l : list X) (i : Z) :
  (i < - Z.of_nat (length l) \/ Z.of_nat (length l) <= i)%Z ->
  Py.getitem l i = Raise IndexError.
Proof.
  intros Hi. unfold Py.getitem.
  destruct (Z.ltb_spec i 0) as [Hneg|Hpos].
  - destruct (Z.ltb_spec (i + Z.of_nat (length l)) 0) as [_|Hj]; [reflexivity|].
    lia.
  - destruct (Z.ltb_spec i 0) as [?|_]; [lia|].
    rewrite (lookup_ge_None_2 l (Z.to_nat i)) by lia. reflexivity.
Qed.

Lemma py_getitem_nonneg {X} (l : list X) (k : nat) (x : X) :
  l !! k = Some x -> Py.getitem l (Z.of_nat k) = Ok x.
Proof.
  intros Hk. unfold Py.getitem.
  destruct (Z.ltb_spec (Z.of_nat k) 0) as [?|_]; [lia|].
  destruct (Z.ltb_spec (Z.of_nat k) 0) as [?|_]; [lia|].
  now rewrite Nat2Z.id, Hk.
Qed.

Lemma py_getitem_negative {X} (l : list X) (i : Z) :
  (- Z.of_nat (length l) <= i < 0)%Z ->
  Py.getitem l i = Py.getitem l (i + Z.of_nat (length l)).
Proof.
  intros Hi. unfold Py.getitem.
  destruct (Z.ltb_spec i 0) as [_|?]; [|lia].
  destruct (Z.ltb_spec (i + Z.of_nat (length l)) 0) as [?|_]; [lia|].
  destruct (Z.ltb_spec (i + Z.of_nat (length l)) 0) as [?|_]; [lia|].
  reflexivity.
Qed.

(** X4.  [__getitem__] of binary_KWS.py indexes like a Python list: an index
    outside [-len, len) raises [IndexError] before any file is read, and a
    negative index in range counts from the end. *)
Theorem getitem_index {A : Type} `{Scalar A}
    (load : string -> result (tensor A * Z))
    (resample : Z -> Z -> tensor A -> tensor A) (log2 : tensor A -> tensor A)
    (mean std : tensor A -> A)
    (self : SpeechCommandsDataset.t) (idx : Z) :
  let len := Z.of_nat (SpeechCommandsDataset.len self) in
  ((idx < - len \/ len <= idx)%Z ->
   SpeechCommandsDataset.getitem load resample log2 mean std self idx
   = Raise IndexError)
  /\ ((- len <= idx < 0)%Z ->
      SpeechCommandsDataset.getitem load resample log2 mean std self idx
      = SpeechCommandsDataset.getitem load resample log2 mean std self
          (idx + len)).
Proof.
  intros len. unfold SpeechCommandsDataset.getitem. split; intros Hi.
  - now rewrite py_getitem_out_of_range.
  - now rewrite py_getitem_negative.
Qed.

(** Two waveforms of one size with the same rows are the same tensor. *)
Lemma waveform_ext {A : Type} `{Scalar A} (c n : nat) (t1 t2 : tensor A) :
  waveform_of c n t1 -> waveform_of c n t2 ->
  torch.rows t1 = torch.rows t2 -> t1 = t2.
Proof.
  intros H1 H2 Hr.
  destruct (rows_2d c n t1 H1) as (Hr1 & _ & _).
  destruct (rows_2d c n t2 H2) as (Hr2 & _ & _).
  destruct H1 as [Hs1 Hw1], H2 as [Hs2 Hw2]. unfold wf in Hw1, Hw2.
  rewrite Hs1 in Hw1. rewrite Hs2 in Hw2. cbn in Hw1, Hw2.
  rewrite Nat.mul_1_r in Hw1, Hw2.
  assert (Hd : data t1 = data t2).
  { rewrite <- (concat_chunks n c (data t1)), <- (concat_chunks n c (data t2))
      by lia. now rewrite <- Hr1, <- Hr2, Hr. }
  destruct t1, t2. cbn in *. congruence.
Qed.

(** X5.  [__getitem__] of binary_KWS.py sees of a clip only its first second:
    two files whose waveforms (once at 16 kHz) have the same channels and
    agree on the first 16000 frames of each, a shorter one counted as filled
    up with zeros, give the same item, features and label alike.  So audio
    after the first second never reaches the features. *)
Theorem getitem_first_second {A : Type} `{Scalar A}
    (load1 load2 : string -> result (tensor A * Z))
    (resample : Z -> Z -> tensor A -> tensor A) (log2 : tensor A -> tensor A)
    (mean std : tensor A -> A)
    (self : SpeechCommandsDataset.t) (k : nat) (path : string) (label : nat)
    (w1 w2 : tensor A) (sr1 sr2 : Z) (c n1 n2 : nat) :
  SpeechCommandsDataset.samples self !! k = Some (path, label) ->
  load1 path = Ok (w1, sr1) -> load2 path = Ok (w2, sr2) ->
  let v1 := if bool_decide (sr1 <> sample_rate)
            then resample sr1 sample_rate w1 else w1 in
  let v2 := if bool_decide (sr2 <> sample_rate)
            then resample sr2 sample_rate w2 else w2 in
  waveform_of c n1 v1 -> waveform_of c n2 v2 ->
  truncate_or_pad (Z.to_nat sample_rate) <$> torch.rows v1
  = truncate_or_pad (Z.to_nat sample_rate) <$> torch.rows v2 ->
  SpeechCommandsDataset.getitem load1 resample log2 mean std self (Z.of_nat k)
  = SpeechCommandsDataset.getitem load2 resample log2 mean std self (Z.of_nat k)
  /\ exists features,
       SpeechCommandsDataset.getitem load1 resample log2 mean std self
         (Z.of_nat k) = Ok (features, label).
Proof.
  intros Hk Hl1 Hl2 v1 v2 Hv1 Hv2 Hrows.
  unfold SpeechCommandsDataset.getitem.
  rewrite (py_getitem_nonneg (X := sample) _ _ _ Hk).
  cbn [mbind result_bind Py.bind fst snd]. rewrite Hl1, Hl2.
  cbn [mbind result_bind Py.bind fst snd].
  destruct (fixed_length_spec resample c n1 w1 sr1 Hv1) as (o1 & -> & Ho1 & Hr1).
  destruct (fixed_length_spec resample c n2 w2 sr2 Hv2) as (o2 & -> & Ho2 & Hr2).
  cbn [mbind result_bind Py.bind].
  assert (Ho : o1 = o2).
  { apply (waveform_ext c (Z.to_nat sample_rate)); [exact Ho1 | exact Ho2|].
    rewrite Hr1, Hr2. exact Hrows. }
  subst o2. split; [reflexivity | eauto].
Qed.

Lemma getitem_first_second_witness :
  exists features,
    SpeechCommandsDataset.getitem
      (fun _ => Ok (three_frames, 8000%Z)) (fun _ _ => twice_each) (fun t => t)
      mean_in_order std_in_order
      (SpeechCommandsDataset.Build "speech_commands" ["yes"] None
         [("speech_commands/yes/a.wav", 0%nat)]) (Z.of_nat 0)
    = Ok (features, 0%nat)
    /\ SpeechCommandsDataset.getitem
         (fun _ => Ok (twice_each three_frames, 16000%Z))
         (fun _ _ => twice_each) (fun t => t) mean_in_order std_in_order
         (SpeechCommandsDataset.Build "speech_commands" ["yes"] None
            [("speech_commands/yes/a.wav", 0%nat)]) (Z.of_nat 0)
       = Ok (features, 0%nat).
Proof.
  destruct (getitem_first_second
              (fun _ => Ok (three_frames, 8000%Z))
              (fun _ => Ok (twice_each three_frames, 16000%Z))
              (fun _ _ => twice_each) (fun t => t) mean_in_order std_in_order
              (SpeechCommandsDataset.Build "speech_commands" ["yes"] None
                 [("speech_commands/yes/a.wav", 0%nat)])
              0 "speech_commands/yes/a.wav" 0
              three_frames (twice_each three_frames) 8000 16000 1 6 6
              eq_refl eq_refl eq_refl)
    as [Heq (features & Hf)].
  - split; reflexivity.
  - split; reflexivity.
  - reflexivity.
  - exists features. split; [exact Hf|]. rewrite <- Heq. exact Hf.
Defined.

(** X6.  On a dataset built by the constructor of first.py, [__getitem__]
    raises [IndexError] for an index outside [-len, len); for a position that
    holds a path it finds a label at the same position, below the number of
    commands, and when the file loads as a well-formed waveform at a
    non-negative rate it returns that label with the (transformed) waveform of
    exactly [sample_rate] frames. *)
Theorem first_getitem {A : Type} `{Scalar A}
    (load : string -> result (tensor A * Z))
    (fs : filesystem) (root : string) (tr : option (tensor A -> tensor A))
    (ds : First.SpeechCommandsDataset.t) (idx : Z) :
  First.SpeechCommandsDataset.init fs root tr = Ok ds ->
  let len := Z.of_nat (First.SpeechCommandsDataset.len ds) in
  ((idx < - len \/ len <= idx)%Z ->
   First.SpeechCommandsDataset.getitem load ds idx = Raise IndexError)
  /\ (forall k path,
        First.SpeechCommandsDataset.all_files ds !! k = Some path ->
        exists label,
          First.SpeechCommandsDataset.labels ds !! k = Some label
          /\ (label < length (First.SpeechCommandsDataset.commands ds))%nat
          /\ forall w sr c n,
               load path = Ok (w, sr) -> waveform_of c n w -> (0 <= sr)%Z ->
               exists out,
                 First.SpeechCommandsDataset._preprocess_audio w sr = Ok out
                 /\ waveform_of c (Z.to_nat sr) out
                 /\ First.SpeechCommandsDataset.getitem load ds (Z.of_nat k)
                    = Ok (match First.SpeechCommandsDataset.transform ds with
                          | Some t => t out
                          | None => out
                          end, label)).
Proof.
  intros Hinit len.
  destruct (fs !! root) as [names|] eqn:Hroot;
    [|unfold First.SpeechCommandsDataset.init, listdir in Hinit;
      rewrite Hroot in Hinit; discriminate].
  rewrite (first_init_spec fs root names tr Hroot) in Hinit.
  injection Hinit as <-. subst len. unfold First.SpeechCommandsDataset.len.
  cbn [First.SpeechCommandsDataset.all_files First.SpeechCommandsDataset.labels
       First.SpeechCommandsDataset.commands First.SpeechCommandsDataset.transform].
  unfold First.SpeechCommandsDataset.getitem.
  cbn [First.SpeechCommandsDataset.all_files First.SpeechCommandsDataset.labels
       First.SpeechCommandsDataset.transform].
  split.
  - intros Hi. rewrite (py_getitem_out_of_range _ idx Hi). reflexivity.
  - intros k path Hk.
    pose proof (first_files_labels_length fs root (enumerate (sorted names))) as Hlen.
    pose proof (lookup_lt_Some _ _ _ Hk) as Hlt. rewrite <- Hlen in Hlt.
    apply lookup_lt_is_Some in Hlt as [label Hlabel].
    exists label. split; [exact Hlabel|]. split.
    + pose proof (first_labels_range fs root (sorted names)) as Hr.
      rewrite Forall_forall in Hr. apply Hr.
      eapply list_elem_of_lookup_2. exact Hlabel.
    + intros w sr c n Hload Hw Hsr.
      destruct (preprocess_audio_spec c n w sr Hw Hsr) as (out & Hout & Hwf & _).
      exists out. split; [exact Hout|]. split; [exact Hwf|].
      rewrite (py_getitem_nonneg _ _ _ Hk), (py_getitem_nonneg _ _ _ Hlabel).
      cbn [mbind result_bind Py.bind]. rewrite Hload.
      cbn [mbind result_bind Py.bind fst snd]. rewrite Hout. reflexivity.
Qed.

Lemma first_getitem_witness :
  First.SpeechCommandsDataset.getitem (A := F32.t)
    (fun _ => Ok (three_frames, 8000%Z))
    (First.SpeechCommandsDataset.Build "speech_commands"
       ["README.md"; "no"; "yes"]
       ["speech_commands/no/c.wav"; "speech_commands/yes/a.wav";
        "speech_commands/yes/b.wav"]
       [1; 2; 2]%nat None) 3
  = Raise IndexError.
Proof.
  refine (proj1 (first_getitem (A := F32.t) (fun _ => Ok (three_frames, 8000%Z))
                   example_fs "speech_commands" None _ 3 _) _).
  - vm_compute. reflexivity.
  - right. cbn. lia.
Defined.

(** ** Fixed-length waveforms, once more *)

Lemma map_rows_fixed {A : Type} `{Scalar A} (c N : nat)
    (f : list A -> list A) (t : tensor A) :
  waveform_of c N t ->
  (forall r, length r = N -> f r = r) ->
  torch.map_rows f N t = t.
Proof.
  intros Ht Hf. destruct (rows_2d c N t Ht) as (Hrows & _ & Hall).
  destruct Ht as [Hs Hwf]. unfold torch.map_rows.
  destruct t as [sh d]. cbn [shape data] in *. subst sh. cbn [removelast app].
  f_equal.
  assert (Hid : f <$> torch.rows (Tensor [c; N] d) = torch.rows (Tensor [c; N] d)).
  { rewrite <- (list_fmap_id (torch.rows (Tensor [c; N] d))) at 2.
    apply Forall_fmap_ext. eapply Forall_impl; [exact Hall|]. cbn. auto. }
  rewrite Hid, Hrows. cbn [data]. apply concat_chunks.
  unfold wf in Hwf. cbn in Hwf. lia.
Qed.

Section Idempotence.
Context {A : Type} `{Scalar A}.

Lemma fixed_length_fixed (resample : Z -> Z -> tensor A -> tensor A)
    (c : nat) (out : tensor A) :
  waveform_of c (Z.to_nat sample_rate) out ->
  SpeechCommandsDataset.fixed_length resample out sample_rate = Ok out.
Proof.
  intros Hw. unfold SpeechCommandsDataset.fixed_length.
  rewrite bool_decide_eq_false_2 by auto.
  pose proof Hw as [Hs _]. unfold torch.size. rewrite Hs.
  cbn [lookup list_lookup mbind result_bind Py.bind].
  destruct (Z.ltb_spec (Z.of_nat (Z.to_nat sample_rate)) sample_rate) as [Hlt|_];
    [unfold sample_rate in Hlt; lia|].
  unfold torch.slice_cols. rewrite Hs.
  assert (Hstop : slice_stop (Z.to_nat sample_rate) sample_rate = Z.to_nat sample_rate).
  { unfold slice_stop, sample_rate. cbn [Z.ltb Z.compare]. lia. }
  rewrite Hstop. f_equal. apply (map_rows_fixed c); [exact Hw|].
  intros r Hr. apply take_ge. lia.
Qed.

Lemma preprocess_audio_fixed (c : nat) (sr : Z) (out : tensor A) :
  (0 <= sr)%Z ->
  waveform_of c (Z.to_nat sr) out ->
  First.SpeechCommandsDataset._preprocess_audio out sr = Ok out.
Proof.
  intros Hsr Hw. unfold First.SpeechCommandsDataset._preprocess_audio.
  pose proof Hw as [Hs _]. unfold torch.size. rewrite Hs.
  cbn [lookup list_lookup mbind result_bind Py.bind]. rewrite Z.mul_1_l.
  destruct (Z.gtb_spec (Z.of_nat (Z.to_nat sr)) sr) as [Hgt|_]; [lia|].
  unfold torch.pad_right. rewrite Hs. cbn [last].
  replace (sr - Z.of_nat (Z.to_nat sr))%Z with 0%Z by lia.
  rewrite Z.add_0_r.
  destruct (Z.ltb_spec (Z.of_nat (Z.to_nat sr)) 0) as [?|_]; [lia|].
  rewrite Nat2Z.id. f_equal. apply (map_rows_fixed c); [exact Hw|].
  intros r Hr. cbn [Z.to_nat replicate]. rewrite app_nil_r. apply take_ge. lia.
Qed.
End Idempotence.

(** X7.  Fixed-length normalization is idempotent in both scripts: applied
    again to its own output (now at 16 kHz in binary_KWS.py, at the same rate
    in first.py) it returns that output unchanged. *)
Theorem fixed_length_idempotent {A : Type} `{Scalar A}
    (resample : Z -> Z -> tensor A -> tensor A)
    (c n m : nat) (w : tensor A) (sr : Z) :
  waveform_of c n w ->
  waveform_of c m (if bool_decide (sr <> sample_rate)
                   then resample sr sample_rate w else w) ->
  (0 <= sr)%Z ->
  (exists out, SpeechCommandsDataset.fixed_length resample w sr = Ok out
     /\ SpeechCommandsDataset.fixed_length resample out sample_rate = Ok out)
  /\ (exists out, First.SpeechCommandsDataset._preprocess_audio w sr = Ok out
        /\ First.SpeechCommandsDataset._preprocess_audio out sr = Ok out).
Proof.
  intros Hw Hw' Hsr. split.
  - destruct (fixed_length_spec resample c m w sr Hw') as (out & Hout & Hwf & _).
    exists out. split; [exact Hout|]. now apply (fixed_length_fixed resample c).
  - destruct (preprocess_audio_spec c n w sr Hw Hsr) as (out & Hout & Hwf & _).
    exists out. split; [exact Hout|]. now apply (preprocess_audio_fixed c).
Qed.

Lemma fixed_length_idempotent_witness :
  (exists out,
     SpeechCommandsDataset.fixed_length (fun _ _ => twice_each) three_frames 8000
       = Ok out
     /\ SpeechCommandsDataset.fixed_length (fun _ _ => twice_each) out sample_rate
        = Ok out)
  /\ (exists out,
        First.SpeechCommandsDataset._preprocess_audio three_frames 8000 = Ok out
        /\ First.SpeechCommandsDataset._preprocess_audio out 8000 = Ok out).
Proof.
  apply (fixed_length_idempotent (fun _ _ => twice_each) 1 3 6 three_frames 8000).
  - split; reflexivity.
  - split; reflexivity.
  - lia.
Defined.

(** ** The network's forward pass *)

Section ForwardReturns.
Context {A : Type} `{Scalar A}.

Lemma linear_returns (input weight : tensor A) (bias : option (tensor A))
    (lead : list nat) (o i : nat) :
  shape weight = [o; i] -> shape input = lead ++ [i] -> bias_fits o bias ->
  exists out, torch.linear input weight bias = Ok out
              /\ shape out = lead ++ [o].
Proof.
  intros Hw Hi Hb. unfold torch.linear. rewrite Hw, Hi.
  rewrite last_snoc, removelast_last.
  rewrite bool_decide_eq_true_2 by reflexivity.
  assert (Hbias : match bias with
                  | Some b => bool_decide (shape b = [o])
                  | None => true
                  end = true).
  { destruct bias as [b|]; [|reflexivity]. now apply bool_decide_eq_true_2. }
  rewrite Hbias. cbn [andb]. eexists. split; reflexivity.
Qed.

Lemma prod_list_cons (b : nat) (rest : list nat) :
  prod_list (b :: rest) = (b * prod_list rest)%nat.
Proof. reflexivity. Qed.

Lemma view_rows_returns (x : tensor A) (b : nat) (rest : list nat) :
  shape x = b :: rest -> b <> 0%nat ->
  NeuralNetworkSimplified.view_rows x = Ok (Tensor [b; prod_list rest] (data x)).
Proof.
  intros Hs Hb. unfold NeuralNetworkSimplified.view_rows, torch.size, torch.numel.
  rewrite Hs. cbn [lookup list_lookup mbind result_bind Py.bind].
  rewrite prod_list_cons, (Nat.mul_comm b (prod_list rest)).
  rewrite Nat.Div0.mod_mul, Nat.div_mul by exact Hb.
  rewrite bool_decide_eq_false_2; [reflexivity|].
  intros [?|Hm]; [contradiction|]. now apply Hm.
Qed.
Lemma binarize_ste_shape (t : tensor A) : shape (binarize_ste t) = shape t.
Proof. now rewrite binarize_ste_sign_view. Qed.

Lemma layer_returns (self : BinarizeLinearSTE.t) (input : tensor A)
    (lead : list nat) (o i : nat) :
  shape (BinarizeLinearSTE.weight self) = [o; i] ->
  shape input = lead ++ [i] ->
  bias_fits o (BinarizeLinearSTE.bias self) ->
  exists out, (BinarizeLinearSTE.forward self input).2 = Ok out
              /\ shape out = lead ++ [o].
Proof.
  intros Hw Hi Hb. unfold BinarizeLinearSTE.forward. cbn [snd].
  apply (linear_returns _ _ _ lead o i).
  - now rewrite binarize_ste_shape.
  - now rewrite binarize_ste_shape.
  - unfold bias_fits in *. destruct (BinarizeLinearSTE.bias self); [|exact I].
    now rewrite binarize_ste_shape.
Qed.

Lemma batch_norm_returns (bn : NeuralNetworkSimplified.BatchNorm1d)
    (x : tensor A) (b h : nat) :
  shape x = [b; h] -> NeuralNetworkSimplified.num_features bn = h ->
  exists out, NeuralNetworkSimplified.batch_norm bn x = Ok out
              /\ shape out = [b; h].
Proof.
  intros Hs Hn. unfold NeuralNetworkSimplified.batch_norm. rewrite Hs.
  rewrite bool_decide_eq_true_2 by congruence.
  eexists. split; [reflexivity|]. unfold torch.map_rows. cbn [shape].
  now rewrite Hs.
Qed.
End ForwardReturns.

(** X8.  The forward pass of [NeuralNetworkSimplified] (evaluation mode)
    returns whenever the sizes fit: a non-empty batch whose examples flatten
    to the input width of [l1], [bn1] as wide as [l1]'s output, [l2] taking
    that width, biases (if any) one per output.  The result has one row per
    example and one column per output of [l2]. *)
Theorem network_forward_returns {A : Type} `{Scalar A}
    (net : NeuralNetworkSimplified.t) (x : tensor A)
    (b h c : nat) (rest : list nat) :
  shape x = b :: rest -> b <> 0%nat ->
  shape (BinarizeLinearSTE.weight (NeuralNetworkSimplified.l1 net))
    = [h; prod_list rest] ->
  bias_fits h (BinarizeLinearSTE.bias (NeuralNetworkSimplified.l1 net)) ->
  NeuralNetworkSimplified.num_features (NeuralNetworkSimplified.bn1 net) = h ->
  shape (BinarizeLinearSTE.weight (NeuralNetworkSimplified.l2 net)) = [c; h] ->
  bias_fits c (BinarizeLinearSTE.bias (NeuralNetworkSimplified.l2 net)) ->
  exists out, NeuralNetworkSimplified.forward net x = Ok out
              /\ shape out = [b; c].
Proof.
  intros Hx Hb Hw1 Hb1 Hbn Hw2 Hb2. unfold NeuralNetworkSimplified.forward.
  rewrite (view_rows_returns x b rest Hx Hb).
  cbn [mbind result_bind Py.bind].
  destruct (layer_returns (NeuralNetworkSimplified.l1 net)
              (Tensor [b; prod_list rest] (data x)) [b] h (prod_list rest)
              Hw1 eq_refl Hb1) as (out1 & -> & Hs1).
  cbn [mbind result_bind Py.bind app] in *.
  destruct (batch_norm_returns (NeuralNetworkSimplified.bn1 net) out1 b h Hs1 Hbn)
    as (out2 & -> & Hs2).
  cbn [mbind result_bind Py.bind].
  apply (layer_returns (NeuralNetworkSimplified.l2 net) _ [b] c h Hw2); [|exact Hb2].
  exact Hs2.
Qed.

Lemma network_forward_returns_witness :
  exists out, NeuralNetworkSimplified.forward tiny_net tiny_features = Ok out
              /\ shape out = [2; 2]%nat.
Proof.
  apply (network_forward_returns tiny_net tiny_features 2 2 2 [1; 2]%nat);
    try reflexivity.
  discriminate.
Defined.

(** X9.  The forward pass raises on inputs it cannot take: [IndexError] on a
    tensor without dimensions, [RuntimeError] on an empty batch, and
    [RuntimeError] when an example does not flatten to the input width of
    the first layer. *)
Theorem network_forward_errors {A : Type} `{Scalar A}
    (net : NeuralNetworkSimplified.t) (x : tensor A) :
  (shape x = [] -> NeuralNetworkSimplified.forward net x = Raise IndexError)
  /\ (forall rest, shape x = 0%nat :: rest ->
        NeuralNetworkSimplified.forward net x = Raise RuntimeError)
  /\ (forall b rest h i,
        shape x = b :: rest -> b <> 0%nat ->
        shape (BinarizeLinearSTE.weight (NeuralNetworkSimplified.l1 net)) = [h; i] ->
        prod_list rest <> i ->
        NeuralNetworkSimplified.forward net x = Raise RuntimeError).
Proof.
  split; [|split].
  - intros Hs. unfold NeuralNetworkSimplified.forward,
      NeuralNetworkSimplified.view_rows, torch.size. now rewrite Hs.
  - intros rest Hs. unfold NeuralNetworkSimplified.forward,
      NeuralNetworkSimplified.view_rows, torch.size. rewrite Hs.
    cbn [lookup list_lookup mbind result_bind Py.bind].
    rewrite bool_decide_eq_true_2 by now left. reflexivity.
  - intros b rest h i Hs Hb Hw Hne. unfold NeuralNetworkSimplified.forward.
    rewrite (view_rows_returns x b rest Hs Hb).
    cbn [mbind result_bind Py.bind]. unfold BinarizeLinearSTE.forward. cbn [snd].
    unfold torch.linear. rewrite !binarize_ste_shape, Hw. cbn [shape last].
    rewrite bool_decide_eq_false_2 by congruence. reflexivity.
Qed.

(** Clamping to [-1, 1] does not change a sign, NaN included. *)
Lemma sign_hardtanh (v : F32.t) :
  sign (if s_ltb v (s_neg s_one) then s_neg s_one
        else if s_ltb s_one v then s_one else v)
  = sign v.
Proof.
  unfold sign. cbn [s_ltb s_geb s_zero s_one s_neg F32_scalar].
  change (F32.neg F32.one) with (S754_finite true 8388608 (-23)).
  change F32.one with (S754_finite false 8388608 (-23)).
  unfold F32.ltb, F32.geb, F32.zero, SFltb, SFleb.
  destruct v as [[]|[]| |[] m e]; try reflexivity.
  - unfold SFcompare at 1 4.
    destruct (SFcompare _ _) as [[]|]; reflexivity.
  - unfold SFcompare at 1.
    match goal with
    | |- context [if ?c then S754_finite false 8388608 (-23)
                  else S754_finite false m e] => destruct c
    end; reflexivity.
Qed.

Lemma sign_view_hardtanh (t : tensor F32.t) :
  sign_view (NeuralNetworkSimplified.dropout (NeuralNetworkSimplified.hardtanh t))
  = sign_view t.
Proof.
  unfold NeuralNetworkSimplified.dropout, NeuralNetworkSimplified.hardtanh,
    sign_view. cbn [shape data]. f_equal.
  rewrite <- list_fmap_compose. apply list_fmap_ext. intros _ v _. cbn.
  apply sign_hardtanh.
Qed.

(** X10.  In the forward pass the [Hardtanh] (and, in evaluation mode, the
    dropout) never changes the result: the second layer binarizes what it is
    given, and clamping to [-1, 1] keeps every sign.  On binary32, NaN
    included, the network returns what it returns without them. *)
Theorem hardtanh_invisible (net : NeuralNetworkSimplified.t) (x : tensor F32.t) :
  NeuralNetworkSimplified.forward net x = forward_without_hardtanh net x.
Proof.
  unfold NeuralNetworkSimplified.forward, forward_without_hardtanh.
  destruct (NeuralNetworkSimplified.view_rows x) as [x'|e]; [|reflexivity].
  cbn [mbind result_bind Py.bind].
  destruct (BinarizeLinearSTE.forward (NeuralNetworkSimplified.l1 net) x').2
    as [out1|e]; [|reflexivity].
  cbn [mbind result_bind Py.bind].
  destruct (NeuralNetworkSimplified.batch_norm (NeuralNetworkSimplified.bn1 net) out1)
    as [out2|e]; [|reflexivity].
  cbn [mbind result_bind Py.bind].
  apply binarized_linear_signs, sign_view_hardtanh.
Qed.

(** X11.  The network sees its input only through the signs of the
    features: two binary32 batches of one shape whose elements agree in sign
    (with [-0.0] and [0.0] counted as non-negative, NaN as negative) get the
    same result, error or value. *)
Theorem network_sees_signs (net : NeuralNetworkSimplified.t)
    (x y : tensor F32.t) :
  sign_view x = sign_view y ->
  NeuralNetworkSimplified.forward net x = NeuralNetworkSimplified.forward net y.
Proof.
  intros Hxy. assert (Hshape : shape x = shape y).
  { now injection Hxy. }
  assert (Hdata : sign <$> data x = sign <$> data y).
  { now injection Hxy. }
  unfold NeuralNetworkSimplified.forward, NeuralNetworkSimplified.view_rows,
    torch.size, torch.numel. rewrite Hshape.
  destruct (shape y !! 0%nat) as [b|]; [|reflexivity].
  cbn [mbind result_bind Py.bind].
  destruct (bool_decide _); [reflexivity|].
  cbn [mbind result_bind Py.bind].
  rewrite (binarized_linear_signs (NeuralNetworkSimplified.l1 net)
             (Tensor [b; (prod_list (shape y) `div` b)%nat] (data x))
             (Tensor [b; (prod_list (shape y) `div` b)%nat] (data y))).
  - reflexivity.
  - unfold sign_view. cbn [shape data]. now rewrite Hdata.
Qed.

Lemma network_sees_signs_witness :
  NeuralNetworkSimplified.forward tiny_net tiny_features
  = NeuralNetworkSimplified.forward tiny_net tiny_features'.
Proof.
  apply network_sees_signs. vm_compute. reflexivity.
Defined.
(** ** The binarized layer over the reals: integer outputs *)

Lemma sign_pm1_real (x : R) : pm1_real (sign x).
Proof.
  unfold pm1_real, sign. cbn [s_geb s_zero s_one s_neg R_scalar].
  destruct (Real.geb x 0); auto.
Qed.

Lemma sign_view_pm1_real (t : tensor R) : Forall pm1_real (data (sign_view t)).
Proof.
  unfold sign_view. cbn [data]. apply Forall_fmap, Forall_true.
  intros x. apply sign_pm1_real.
Qed.

Lemma chunks_Forall {X} (P : X -> Prop) (n k : nat) (l : list X) :
  Forall P l -> Forall (fun r => Forall P r /\ (length r <= n)%nat) (chunks n k l).
Proof.
  revert l. induction k as [|k IH]; intros l Hl; cbn; constructor.
  - split; [now apply Forall_take|]. rewrite length_take. lia.
  - apply IH. now apply Forall_drop.
Qed.

Lemma sum_pm1_real (l : list R) :
  Forall pm1_real l -> int_within (Z.of_nat (length l)) (torch.sum l).
Proof.
  rewrite sum_Rsum. induction 1 as [|x l Hx _ IH]; cbn [Rsum foldr length].
  - exists 0%Z. split; [reflexivity | lia].
  - fold (Rsum l). destruct IH as (k & -> & Hk).
    destruct Hx as [-> | ->].
    + exists (1 + k)%Z. split; [now rewrite plus_IZR | lia].
    + exists (-1 + k)%Z. split; [now rewrite plus_IZR | lia].
Qed.

Lemma dot_pm1_real (n : nat) (x w : list R) :
  Forall pm1_real x -> Forall pm1_real w -> (length w <= n)%nat ->
  int_within (Z.of_nat n) (torch.dot x w).
Proof.
  intros Hx Hw Hn. unfold torch.dot.
  assert (Hz : Forall pm1_real (zip_with s_mul x w)).
  { clear Hn. revert w Hw. induction Hx as [|a x Ha _ IH]; intros w Hw; [constructor|].
    destruct Hw as [|b w Hb Hw]; cbn; constructor; [|now apply IH].
    destruct Ha as [-> | ->], Hb as [-> | ->]; [left|right|right|left]; lra. }
  destruct (sum_pm1_real _ Hz) as (k & Hk & Hb). exists k. split; [exact Hk|].
  rewrite length_zip_with in Hb. lia.
Qed.

Lemma affine_row_integers (n : nat) (ws : list (list R)) (b : option (list R))
    (x : list R) :
  Forall pm1_real x ->
  Forall (fun w => Forall pm1_real w /\ (length w <= n)%nat) ws ->
  from_option (Forall pm1_real) True b ->
  Forall (int_within (Z.of_nat n + 1)) (torch.affine_row ws b x).
Proof.
  intros Hx Hws Hb. unfold torch.affine_row.
  assert (Hy : Forall (int_within (Z.of_nat n)) (torch.dot x <$> ws)).
  { apply Forall_fmap. eapply Forall_impl; [exact Hws|].
    intros w [Hw Hn]. now apply dot_pm1_real. }
  destruct b as [bs|]; cbn in Hb.
  - revert bs Hb. induction Hy as [|y ys (k & -> & Hk) _ IH]; intros bs Hb;
      [constructor|].
    destruct Hb as [|c bs Hc Hb]; cbn; constructor; [|now apply IH].
    destruct Hc as [-> | ->].
    + exists (k + 1)%Z. split; [now rewrite plus_IZR | lia].
    + exists (k + -1)%Z. split; [now rewrite plus_IZR | lia].
  - eapply Forall_impl; [exact Hy|]. intros y (k & -> & Hk).
    exists k. split; [reflexivity | lia].
Qed.

Lemma Forall_concat {X} (P : X -> Prop) (ls : list (list X)) :
  Forall (Forall P) ls -> Forall P (concat ls).
Proof. induction 1; cbn; [constructor | now apply Forall_app]. Qed.

(** X12.  Read over the reals, every output of a binarized linear layer is an
    integer of absolute value at most the layer's input width plus one: a sum
    of products of signs, plus the sign of the bias. *)
Theorem binarized_linear_integers (self : BinarizeLinearSTE.t (A := R))
    (input : tensor R) :
  match (BinarizeLinearSTE.forward self input).2 with
  | Ok out =>
      Forall (int_within
                (Z.of_nat (nth 1 (shape (BinarizeLinearSTE.weight self)) 0%nat) + 1))
        (data out)
  | Raise _ => True
  end.
Proof.
  unfold BinarizeLinearSTE.forward. cbn [snd]. unfold torch.linear.
  rewrite !binarize_ste_shape.
  destruct (shape (BinarizeLinearSTE.weight self)) as [|o [|i [|? ?]]]; try exact I.
  destruct (bool_decide (last (shape input) = Some i)) eqn:Hlast; cbn [andb];
    [|exact I].
  destruct (match _ with Some _ => _ | None => true end); [|exact I].
  cbn [data nth]. apply Forall_concat, Forall_fmap.
  apply bool_decide_eq_true_1 in Hlast.
  unfold torch.rows. rewrite binarize_ste_shape, Hlast.
  rewrite !binarize_ste_sign_view.
  eapply Forall_impl;
    [exact (chunks_Forall pm1_real i _ _ (sign_view_pm1_real input))|].
  intros r [Hr _]. cbn. apply affine_row_integers.
  - exact Hr.
  - exact (chunks_Forall pm1_real i o _
             (sign_view_pm1_real (BinarizeLinearSTE.weight self))).
  - destruct (BinarizeLinearSTE.bias self) as [b|]; [|exact I].
    change (Forall pm1_real (data (binarize_ste b))).
    rewrite binarize_ste_sign_view. apply sign_view_pm1_real.
Qed.

(** ** Evaluation: errors and predictions *)

(** X13.  The evaluation loop has no handler: the first batch on which the
    model raises ends it with that exception, and when the batches hold no
    example at all the final division raises [ZeroDivisionError]. *)
Theorem evaluate_errors {A : Type} `{Scalar A}
    (model : tensor A -> result (tensor A)) :
  (forall good bad rest e,
      Forall (well_served model) good -> model bad.1 = Raise e ->
      evaluate model (good ++ bad :: rest) = Raise e)
  /\ (forall loader,
        Forall (well_served model) loader -> total_examples loader = 0%nat ->
        evaluate model loader = Raise ZeroDivisionError).
Proof.
  split.
  - intros good bad rest e Hgood Hbad. unfold evaluate.
    rewrite foldM_app, (eval_fold_spec model good _ Hgood).
    cbn [Py.bind foldM]. unfold eval_batch at 1. rewrite Hbad. reflexivity.
  - intros loader Hall Hzero. unfold evaluate.
    rewrite (eval_fold_spec model loader _ Hall), Hzero.
    cbn [mbind result_bind Py.bind fst snd Z.of_nat Z.add]. unfold true_div.
    now destruct (100 * _)%Z.
Qed.

(** The tiny network refuses the batch of three features. *)
Example evaluate_errors_example :
  evaluate (NeuralNetworkSimplified.forward tiny_net) (tiny_loader ++ [wide_batch])
  = Raise RuntimeError.
Proof. vm_compute. reflexivity. Qed.

Section PredictionBounds.
Context {A : Type} `{Scalar A}.

Lemma argmax_scan_bound (l : list A) (best : A) (best_i i : nat) :
  argmax_scan best best_i i l = best_i
  \/ (i <= argmax_scan best best_i i l < i + length l)%nat.
Proof.
  revert best best_i i. induction l as [|v l IH]; intros best best_i i; [now left|].
  cbn [argmax_scan length]. destruct (s_geb best v).
  - destruct (IH best best_i (S i)) as [->|?]; [now left | right; lia].
  - destruct (isnan v); [right; lia|].
    destruct (IH v i (S i)) as [->|?]; right; lia.
Qed.

Lemma argmax_row_bound (r : list A) (c : nat) :
  (length r <= c)%nat -> c <> 0%nat -> (argmax_row r < c)%nat.
Proof.
  intros Hr Hc. destruct r as [|v r]; cbn [argmax_row]; [lia|].
  destruct (argmax_scan_bound (v :: r) v 0 0) as [->|?]; lia.
Qed.
End PredictionBounds.

Lemma omap_length_le {X Y} (f : X -> option Y) (l : list X) :
  (length (omap f l) <= length l)%nat.
Proof.
  induction l as [|x l IH]; [reflexivity|]. cbn. destruct (f x); cbn; lia.
Qed.

(** X14.  [torch.max(outputs, 1)] returns exactly on the tensors with at
    least two dimensions and a non-empty dimension 1, and raises
    [IndexError] on the others.  When it returns, the indices have the shape
    of [outputs] without dimension 1, one per position of the remaining
    dimensions, and each is a valid position along dimension 1. *)
Theorem predictions_are_classes {A : Type} `{Scalar A} (outputs : tensor A) :
  match max_dim1 outputs with
  | Ok predicted =>
      exists b c rest,
        shape outputs = b :: c :: rest /\ c <> 0%nat
        /\ shape predicted = b :: rest
        /\ length (data predicted) = (b * prod_list rest)%nat
        /\ Forall (fun p => (p < c)%nat) (data predicted)
  | Raise e =>
      e = IndexError
      /\ ((length (shape outputs) < 2)%nat \/ shape outputs !! 1%nat = Some 0%nat)
  end.
Proof.
  unfold max_dim1.
  destruct (shape outputs) as [|b [|c rest]];
    [split; [reflexivity | left; cbn; lia]..|].
  destruct (bool_decide (c = 0%nat)) eqn:Hc.
  { apply bool_decide_eq_true_1 in Hc as ->. split; [reflexivity | now right]. }
  apply bool_decide_eq_false_1 in Hc.
  exists b, c, rest. split; [reflexivity|]. split; [exact Hc|].
  split; [reflexivity|]. cbn [data]. split.
  - rewrite (concat_length_rows (prod_list rest)).
    + now rewrite length_fmap, chunks_length.
    + apply Forall_fmap, Forall_true. intros block. cbn.
      now rewrite length_fmap, length_seq.
  - apply Forall_concat, Forall_fmap, Forall_true. intros block. cbn.
    apply Forall_fmap, Forall_true. intros k. cbn.
    apply argmax_row_bound; [|exact Hc]. unfold along_dim1.
    etransitivity; [apply omap_length_le|]. now rewrite chunks_length.
Qed.

(** A batch of scores with a third dimension: [torch.max(outputs, 1)] returns
    two indices per example, and the comparison with the labels broadcasts. *)
Example predictions_three_dimensions :
  (p ← max_dim1 (Tensor [2; 2; 2]%nat
                    [F32.of_Z 1; F32.of_Z 5; F32.of_Z 3; F32.of_Z 2;
                     F32.of_Z 7; F32.of_Z 0; F32.of_Z 1; F32.of_Z 4]);
   n ← eq_sum p [1%nat; 0%nat]; Ok (p, n))
  = Ok (Tensor [2; 2]%nat [1%nat; 0%nat; 0%nat; 1%nat], 2%nat).
Proof. vm_compute. reflexivity. Qed.

(** Over the reals the scan keeps the first maximum. *)
Lemma argmax_scan_first (l p : list R) (best : R) (best_i : nat) :
  (p ++ l) !! best_i = Some best ->
  (forall w, w ∈ p -> (w <= best)%R) ->
  (forall j w, (j < best_i)%nat -> (p ++ l) !! j = Some w -> (w < best)%R) ->
  exists v, (p ++ l) !! argmax_scan best best_i (length p) l = Some v
            /\ (forall w, w ∈ p ++ l -> (w <= v)%R)
            /\ (forall j w, (j < argmax_scan best best_i (length p) l)%nat ->
                            (p ++ l) !! j = Some w -> (w < v)%R).
Proof.
  revert p best best_i. induction l as [|x l IH]; intros p best best_i Hb Hp Hlt.
  - cbn. exists best. rewrite app_nil_r in *. auto.
  - cbn [argmax_scan]. cbn [s_geb R_scalar]. unfold Real.geb.
    replace (p ++ x :: l) with ((p ++ [x]) ++ l) in * by now rewrite <- app_assoc.
    replace (S (length p)) with (length (p ++ [x])) by (rewrite length_app; cbn; lia).
    destruct (Rle_dec x best) as [Hle|Hgt].
    + apply IH; [exact Hb| |exact Hlt]. intros w Hw.
      apply elem_of_app in Hw as [Hw|Hw]; [now apply Hp|].
      apply list_elem_of_singleton in Hw. now subst.
    + assert (Hnan : isnan x = false).
      { unfold isnan. cbn [s_geb R_scalar]. unfold Real.geb.
        destruct (Rle_dec x x) as [_|Hn]; [reflexivity|]. exfalso. apply Hn. lra. }
      rewrite Hnan. apply IH.
      * rewrite lookup_app_l by (rewrite length_app; cbn; lia).
        rewrite lookup_app_r by lia. now rewrite Nat.sub_diag.
      * intros w Hw. apply elem_of_app in Hw as [Hw|Hw].
        -- specialize (Hp w Hw). lra.
        -- apply list_elem_of_singleton in Hw. subst. lra.
      * intros j w Hj Hw.
        rewrite lookup_app_l in Hw by (rewrite length_app; cbn; lia).
        rewrite lookup_app_l in Hw by lia.
        assert (Hin : w ∈ p) by (eapply list_elem_of_lookup_2; exact Hw).
        specialize (Hp w Hin). lra.
Qed.

(** X15.  Over the reals the class predicted for a non-empty row of scores is
    the first index of the row's maximum: no score is larger, and every
    earlier score is strictly smaller. *)
Theorem argmax_first_maximum (r : list R) :
  r <> [] ->
  exists v, r !! argmax_row r = Some v
            /\ (forall w, w ∈ r -> (w <= v)%R)
            /\ (forall j w, (j < argmax_row r)%nat -> r !! j = Some w -> (w < v)%R).
Proof.
  destruct r as [|x r]; [congruence|]. intros _. unfold argmax_row.
  apply (argmax_scan_first (x :: r) [] x 0%nat); [reflexivity| |].
  - intros w Hw. now apply elem_of_nil in Hw.
  - intros j w Hj. lia.
Qed.

Lemma argmax_first_maximum_witness :
  exists v, [1; 3; 3; 2]%R !! argmax_row [1; 3; 3; 2]%R = Some v
            /\ (forall w, w ∈ [1; 3; 3; 2]%R -> (w <= v)%R)
            /\ (forall j w, (j < argmax_row [1; 3; 3; 2]%R)%nat ->
                            [1; 3; 3; 2]%R !! j = Some w -> (w < v)%R).
Proof. apply argmax_first_maximum. discriminate. Defined.

(** ** Weight export: one file per parameter *)

Section ExportFiles.
Context {A : Type} `{Scalar A}.
Variable fmt : A -> string.

Lemma written_snoc (files : gmap string string)
    (params : list (string * tensor A)) (p : string * tensor A) :
  written fmt files (params ++ [p])
  = <[First.export_filename p.1 := lines fmt (data p.2)]> (written fmt files params).
Proof. unfold written. now rewrite foldl_snoc. Qed.

Lemma written_untouched (files : gmap string string)
    (params : list (string * tensor A)) (f : string) :
  f ∉ (fun p => First.export_filename p.1) <$> params ->
  written fmt files params !! f = files !! f.
Proof.
  induction params as [|p params IH] using rev_ind; intros Hf; [reflexivity|].
  rewrite written_snoc. rewrite fmap_app in Hf. cbn in Hf.
  rewrite elem_of_app, list_elem_of_singleton in Hf.
  rewrite lookup_insert_ne by (intros Heq; apply Hf; right; now symmetry).
  apply IH. tauto.
Qed.

Lemma written_lookup (files : gmap string string)
    (params : list (string * tensor A)) (name : string) (t : tensor A) :
  NoDup ((fun p => First.export_filename p.1) <$> params) ->
  (name, t) ∈ params ->
  written fmt files params !! First.export_filename name = Some (lines fmt (data t)).
Proof.
  induction params as [|p params IH] using rev_ind; intros Hnd Hin.
  - now apply elem_of_nil in Hin.
  - rewrite written_snoc. rewrite fmap_app in Hnd.
    apply NoDup_app in Hnd as (Hnd & Hdisj & _).
    apply elem_of_app in Hin as [Hin|Hin].
    + rewrite lookup_insert_ne; [now apply IH|].
      intros Heq. apply (Hdisj (First.export_filename name)).
      * apply list_elem_of_fmap. now exists (name, t).
      * cbn. rewrite <- Heq. left.
    + apply list_elem_of_singleton in Hin as <-. cbn [fst snd].
      apply lookup_insert_eq.
Qed.
End ExportFiles.

(** X16.  When no two parameters go to the same file, the export returns and
    leaves, for every parameter, the file named after it with one line per
    element of the parameter, in storage order; it prints one message per
    parameter, and every file under another name is left as it was. *)
Theorem export_files {A : Type} `{Scalar A} (fmt : A -> string)
    (params : list (string * tensor A)) (files : gmap string string) :
  NoDup ((fun p => First.export_filename p.1) <$> params) ->
  exists files' messages,
    First.export fmt params files = Ok (files', messages)
    /\ length messages = length params
    /\ (forall name t, (name, t) ∈ params ->
          files' !! First.export_filename name = Some (lines fmt (data t)))
    /\ (forall f, f ∉ (fun p => First.export_filename p.1) <$> params ->
          files' !! f = files !! f).
Proof.
  intros Hnd.
  assert (Hnames : NoDup params.*1).
  { apply (NoDup_fmap_1 First.export_filename).
    rewrite <- list_fmap_compose. exact Hnd. }
  eexists _, _. split; [now apply export_spec|].
  split; [now rewrite length_fmap|]. split.
  - intros name t Hin. now apply written_lookup.
  - intros f Hf. now apply written_untouched.
Qed.

Lemma export_files_witness :
  exists files' messages,
    First.export First.format_18e example_params ∅ = Ok (files', messages)
    /\ length messages = length example_params
    /\ (forall name t, (name, t) ∈ example_params ->
          files' !! First.export_filename name
          = Some (lines First.format_18e (data t)))
    /\ (forall f, f ∉ (fun p => First.export_filename p.1) <$> example_params ->
          files' !! f = (∅ : gmap string string) !! f).
Proof.
  apply export_files.
  apply (bool_decide_unpack _). vm_compute. exact I.
Defined.

(** File names of a network's parameters. *)
Lemma pretty_N_char_digit (x : N) : is_digit (pretty_N_char x) = true.
Proof. unfold pretty_N_char. repeat case_match; reflexivity. Qed.

Lemma pretty_N_go_digits (x : N) (s : string) :
  digits_only s -> digits_only (pretty_N_go x s).
Proof.
  revert s. induction (N.lt_wf_0 x) as [x _ IH]; intros s Hs.
  assert (x = 0 \/ 0 < x)%N as [->|Hx] by lia.
  - now rewrite pretty_N_go_0.
  - rewrite pretty_N_go_step by exact Hx. apply IH.
    + now apply N.div_lt.
    + split; [apply pretty_N_char_digit | exact Hs].
Qed.

Lemma pretty_nat_digits (n : nat) : digits_only (pretty n).
Proof.
  unfold pretty, pretty_nat, pretty, pretty_N.
  case_decide; [cbn; auto|]. now apply pretty_N_go_digits.
Qed.

Lemma replace_char_digits (s : string) :
  digits_only s -> replace_char "."%char "_"%char s = s.
Proof.
  induction s as [|c s IH]; [reflexivity|]. intros [Hc Hs]. cbn [replace_char].
  rewrite IH by exact Hs. destruct (Ascii.eqb_spec c "."%char) as [->|_];
    [discriminate | reflexivity].
Qed.

Lemma replace_char_app (old new : Ascii.ascii) (a b : string) :
  replace_char old new (a +:+ b) = replace_char old new a +:+ replace_char old new b.
Proof. induction a as [|c a IH]; simpl; [reflexivity | now rewrite IH]. Qed.

Lemma string_app_assoc (a b c : string) : (a +:+ b) +:+ c = a +:+ (b +:+ c).
Proof.
  induction a as [|x a IH]; [reflexivity|].
  change (String x ((a +:+ b) +:+ c) = String x (a +:+ (b +:+ c))).
  f_equal. exact IH.
Qed.

Lemma export_filename_weight (i : nat) :
  First.export_filename ("model." +:+ pretty i +:+ ".weight") = weight_file i.
Proof.
  unfold First.export_filename, weight_file.
  rewrite !replace_char_app.
  rewrite (replace_char_digits (pretty i)) by apply pretty_nat_digits.
  rewrite !string_app_assoc. reflexivity.
Qed.

Lemma export_filename_bias (i : nat) :
  First.export_filename ("model." +:+ pretty i +:+ ".bias") = bias_file i.
Proof.
  unfold First.export_filename, bias_file.
  rewrite !replace_char_app.
  rewrite (replace_char_digits (pretty i)) by apply pretty_nat_digits.
  rewrite !string_app_assoc. reflexivity.
Qed.

Lemma digits_app_inj (a b : string) (c c' : Ascii.ascii) (s s' : string) :
  digits_only a -> digits_only b ->
  is_digit c = false -> is_digit c' = false ->
  a +:+ String c s = b +:+ String c' s' -> a = b /\ s = s'.
Proof.
  revert b. induction a as [|x a IH]; intros b Ha Hb Hc Hc' Heq.
  - destruct b as [|y b]; simpl in Heq.
    + injection Heq as _ <-. auto.
    + injection Heq as -> _. destruct Hb as [Hy _]. congruence.
  - destruct b as [|y b]; simpl in Heq.
    + injection Heq as -> _. destruct Ha as [Hx _]. congruence.
    + injection Heq as -> Heq. destruct Ha as [_ Ha], Hb as [_ Hb].
      destruct (IH b Ha Hb Hc Hc' Heq) as [-> ->]. auto.
Qed.

Lemma file_names_inj (i j : nat) :
  (weight_file i = weight_file j -> i = j)
  /\ (bias_file i = bias_file j -> i = j)
  /\ weight_file i <> bias_file j.
Proof.
  unfold weight_file, bias_file. repeat split.
  - intros Heq. apply String.app_inj in Heq.
    apply digits_app_inj in Heq as [Heq _];
      [now apply pretty_nat_inj in Heq | apply pretty_nat_digits..| reflexivity | reflexivity].
  - intros Heq. apply String.app_inj in Heq.
    apply digits_app_inj in Heq as [Heq _];
      [now apply pretty_nat_inj in Heq | apply pretty_nat_digits..| reflexivity | reflexivity].
  - intros Heq. apply String.app_inj in Heq.
    apply digits_app_inj in Heq as [_ Heq];
      [discriminate | apply pretty_nat_digits..| reflexivity | reflexivity].
Qed.

Section NetworkFiles.
Context {A : Type}.

Lemma named_parameters_files (layers : list (First.MLP.layer (A := A))) :
  (fun p => First.export_filename p.1)
    <$> First.MLP.named_parameters (First.MLP.Build layers)
  = concat (imap layer_files layers).
Proof.
  unfold First.MLP.named_parameters. cbn [First.MLP.model].
  induction layers as [|l layers IH] using rev_ind; [reflexivity|].
  rewrite !imap_app, !concat_app, fmap_app, IH. f_equal.
  cbn [imap concat]. rewrite !app_nil_r, Nat.add_0_r.
  destruct l; cbn [layer_files fmap list_fmap fst]; [|reflexivity..].
  now rewrite export_filename_weight, export_filename_bias.
Qed.

Lemma layer_files_elem (layers : list (First.MLP.layer (A := A))) (f : string) :
  f ∈ concat (imap layer_files layers) ->
  exists i, (i < length layers)%nat /\ (f = weight_file i \/ f = bias_file i).
Proof.
  induction layers as [|l layers IH] using rev_ind; intros Hf.
  - now apply elem_of_nil in Hf.
  - rewrite imap_app, concat_app in Hf. cbn [imap concat] in Hf.
    rewrite app_nil_r, Nat.add_0_r in Hf. rewrite length_app. cbn [length].
    apply elem_of_app in Hf as [Hf|Hf].
    + destruct (IH Hf) as (i & Hi & Hfi). exists i. split; [lia | exact Hfi].
    + exists (length layers). split; [lia|].
      destruct l; cbn in Hf; try now apply elem_of_nil in Hf.
      apply elem_of_cons in Hf as [->|Hf]; [now left|].
      apply list_elem_of_singleton in Hf as ->. now right.
Qed.

Lemma layer_files_NoDup (layers : list (First.MLP.layer (A := A))) :
  NoDup (concat (imap layer_files layers)).
Proof.
  induction layers as [|l layers IH] using rev_ind; [constructor|].
  rewrite imap_app, concat_app. cbn [imap concat].
  rewrite app_nil_r, Nat.add_0_r. apply NoDup_app. split; [exact IH|]. split.
  - intros f Hf Hl. apply layer_files_elem in Hf as (i & Hi & Hfi).
    destruct l; cbn in Hl; try now apply elem_of_nil in Hl.
    destruct (file_names_inj i (length layers)) as (Hw & Hb & Hwb).
    destruct (file_names_inj (length layers) i) as (_ & _ & Hbw).
    apply elem_of_cons in Hl as [->|Hl];
      [|apply list_elem_of_singleton in Hl as ->];
      destruct Hfi as [Hfi|Hfi]; try (symmetry in Hfi); auto; try lia.
    + apply Hw in Hfi. lia.
    + apply Hb in Hfi. lia.
  - destruct l; cbn; try constructor.
    + intros Hin. apply list_elem_of_singleton in Hin.
      now apply (file_names_inj (length layers) (length layers)) in Hin.
    + apply NoDup_singleton.
Qed.

Lemma named_parameters_length (layers : list (First.MLP.layer (A := A))) :
  length (First.MLP.named_parameters (First.MLP.Build layers))
  = (2 * count_linear layers)%nat.
Proof.
  unfold First.MLP.named_parameters, count_linear. cbn [First.MLP.model].
  induction layers as [|l layers IH] using rev_ind; [reflexivity|].
  rewrite imap_app, concat_app, length_app, IH, filter_app, length_app.
  cbn [imap concat]. rewrite app_nil_r.
  destruct l.
  - rewrite filter_cons_True by reflexivity. cbn. lia.
  - rewrite filter_cons_False by (cbn; discriminate). cbn. lia.
  - rewrite filter_cons_False by (cbn; discriminate). cbn. lia.
Qed.
End NetworkFiles.

(** X17.  Whatever the layers of the network, its parameters go to pairwise
    different files, two per [Linear] layer ([model_i_weight.txt] and
    [model_i_bias.txt] for the layer at position [i]); so the export returns,
    prints two messages per [Linear] layer, and every parameter's file holds
    that parameter's numbers (none is overwritten by another). *)
Theorem mlp_export_files {A : Type} `{Scalar A} (fmt : A -> string)
    (self : First.MLP.t) (files : gmap string string) :
  NoDup ((fun p => First.export_filename p.1) <$> First.MLP.named_parameters self)
  /\ (fun p => First.export_filename p.1) <$> First.MLP.named_parameters self
     = concat (imap layer_files (First.MLP.model self))
  /\ exists files' messages,
       First.export fmt (First.MLP.named_parameters self) files
         = Ok (files', messages)
       /\ length messages = (2 * count_linear (First.MLP.model self))%nat
       /\ forall name t, (name, t) ∈ First.MLP.named_parameters self ->
            files' !! First.export_filename name = Some (lines fmt (data t)).
Proof.
  destruct self as [layers]. cbn [First.MLP.model].
  assert (Hnd : NoDup ((fun p => First.export_filename p.1)
                         <$> First.MLP.named_parameters (First.MLP.Build layers))).
  { rewrite named_parameters_files. apply layer_files_NoDup. }
  split; [exact Hnd|]. split; [apply named_parameters_files|].
  assert (Hnames : NoDup (First.MLP.named_parameters (First.MLP.Build layers)).*1).
  { apply (NoDup_fmap_1 First.export_filename).
    rewrite <- list_fmap_compose. exact Hnd. }
  eexists _, _. split; [now apply export_spec|].
  split; [now rewrite length_fmap, named_parameters_length|].
  intros name t Hin. now apply written_lookup.
Qed.

(** ** The multilayer perceptron of first.py *)
Section Perceptron.
Context {A : Type} `{Scalar A}.
Variable s_exp : A -> A.
Variable s_log : A -> A.

Lemma affine_row_length (ws : list (list A)) (bs x : list A) :
  length bs = length ws ->
  length (torch.affine_row ws (Some bs) x) = length ws.
Proof.
  intros Hb. unfold torch.affine_row. rewrite length_zip_with, length_fmap. lia.
Qed.

Lemma linear_waveform (input weight bias : tensor A) (b o i : nat) :
  shape weight = [o; i] -> shape input = [b; i] -> shape bias = [o] -> wf bias ->
  exists out, torch.linear input weight (Some bias) = Ok out
              /\ waveform_of b o out.
Proof.
  intros Hw Hi Hb Hwf. unfold torch.linear. rewrite Hw, Hi, Hb. cbn [last removelast app].
  rewrite !bool_decide_eq_true_2 by reflexivity. cbn [andb].
  eexists. split; [reflexivity|]. split; [reflexivity|].
  unfold wf. cbn [data shape fmap option_fmap option_map].
  rewrite (concat_length_rows o).
  - rewrite length_fmap. unfold torch.rows. rewrite Hi. cbn [last removelast].
    rewrite chunks_length. cbn. lia.
  - apply Forall_fmap, Forall_forall. intros r _.
    change (length (torch.affine_row (chunks i o (data weight))
                      (Some (data bias)) r) = o).
    rewrite affine_row_length; rewrite chunks_length; [reflexivity|].
    unfold wf in Hwf. rewrite Hwf, Hb. cbn. lia.
Qed.

Lemma linear_wrong_width (input weight : tensor A) (bias : option (tensor A))
    (b k o i : nat) :
  shape weight = [o; i] -> shape input = [b; k] -> k <> i ->
  torch.linear input weight bias = Raise RuntimeError.
Proof.
  intros Hw Hi Hk. unfold torch.linear. rewrite Hw, Hi. cbn [last].
  rewrite bool_decide_eq_false_2 by congruence. reflexivity.
Qed.

Lemma relu_waveform (x : tensor A) (b n : nat) :
  waveform_of b n x -> waveform_of b n (First.MLP.relu x).
Proof.
  intros [Hs Hwf]. split; [exact Hs|]. unfold wf, First.MLP.relu in *.
  cbn [data shape]. now rewrite length_fmap.
Qed.

Lemma log_softmax_waveform (x : tensor A) (b c : nat) :
  waveform_of b c x ->
  exists out, First.MLP.log_softmax s_exp s_log x = Ok out
              /\ waveform_of b c out
              /\ torch.rows out = First.MLP.log_softmax_row s_exp s_log <$> torch.rows x.
Proof.
  intros Hx. unfold First.MLP.log_softmax. rewrite (proj1 Hx).
  eexists. split; [reflexivity|]. apply (map_rows_2d b c c); [exact Hx|].
  intros r Hr. unfold First.MLP.log_softmax_row. now rewrite length_fmap.
Qed.

Lemma hidden_forward (new_linear : nat -> nat -> First.MLP.layer (A := A))
    (hidden_sizes : list nat) (in_size b : nat) (x : tensor A) :
  fresh_linear new_linear -> waveform_of b in_size x ->
  exists y,
    foldM (First.MLP.apply_layer s_exp s_log) x
      (First.MLP.hidden_layers new_linear in_size hidden_sizes).1 = Ok y
    /\ waveform_of b (First.MLP.hidden_layers new_linear in_size hidden_sizes).2 y.
Proof.
  intros Hnew. revert in_size x.
  induction hidden_sizes as [|h hs IH]; intros in_size x Hx.
  - exists x. split; [reflexivity | exact Hx].
  - cbn [First.MLP.hidden_layers fst snd foldM].
    destruct (Hnew in_size h) as (w & bt & -> & [Hw _] & Hb & Hbwf).
    cbn [First.MLP.apply_layer].
    destruct (linear_waveform x w bt b h in_size Hw (proj1 Hx) Hb Hbwf)
      as (y & -> & Hy).
    cbn [Py.bind]. apply IH. now apply relu_waveform.
Qed.

Lemma init_forward (new_linear : nat -> nat -> First.MLP.layer (A := A))
    (hidden_sizes : list nat) (input_size num_classes b : nat) (x : tensor A) :
  fresh_linear new_linear -> waveform_of b input_size x ->
  exists y out,
    First.MLP.forward s_exp s_log
      (First.MLP.init new_linear input_size hidden_sizes num_classes) x = Ok out
    /\ waveform_of b num_classes y /\ waveform_of b num_classes out
    /\ torch.rows out = First.MLP.log_softmax_row s_exp s_log <$> torch.rows y.
Proof.
  intros Hnew Hx. unfold First.MLP.forward, First.MLP.init. cbn [First.MLP.model].
  rewrite foldM_app.
  destruct (hidden_forward new_linear hidden_sizes input_size b x Hnew Hx)
    as (h & -> & Hh).
  cbn [Py.bind foldM].
  destruct (Hnew (First.MLP.hidden_layers new_linear input_size hidden_sizes).2
              num_classes) as (w & bt & -> & [Hw _] & Hb & Hbwf).
  cbn [First.MLP.apply_layer].
  destruct (linear_waveform h w bt b num_classes _ Hw (proj1 Hh) Hb Hbwf)
    as (y & -> & Hy).
  cbn [Py.bind].
  destruct (log_softmax_waveform y b num_classes Hy) as (out & -> & Hout & Hrows).
  cbn [Py.bind]. exists y, out. auto.
Qed.

Lemma foldM_raise {S B} (f : S -> B -> result S) (s : S) (x : B) (l : list B)
    (e : exn) :
  f s x = Raise e -> foldM f s (x :: l) = Raise e.
Proof. intros Hf. cbn [foldM]. now rewrite Hf. Qed.

Lemma init_forward_wrong_width (new_linear : nat -> nat -> First.MLP.layer (A := A))
    (hidden_sizes : list nat) (input_size num_classes b k : nat) (x : tensor A) :
  fresh_linear new_linear -> shape x = [b; k] -> k <> input_size ->
  First.MLP.forward s_exp s_log
    (First.MLP.init new_linear input_size hidden_sizes num_classes) x
  = Raise RuntimeError.
Proof.
  intros Hnew Hx Hk. unfold First.MLP.forward, First.MLP.init. cbn [First.MLP.model].
  destruct hidden_sizes as [|h hs].
  - cbn [First.MLP.hidden_layers fst snd app].
    destruct (Hnew input_size num_classes) as (w & bt & -> & [Hw _] & _).
    apply foldM_raise. cbn [First.MLP.apply_layer].
    now apply (linear_wrong_width _ _ _ b k num_classes input_size).
  - cbn [First.MLP.hidden_layers fst snd app].
    destruct (Hnew input_size h) as (w & bt & -> & [Hw _] & _).
    apply foldM_raise. cbn [First.MLP.apply_layer].
    now apply (linear_wrong_width _ _ _ b k h input_size).
Qed.
End Perceptron.

(** X18.  A network built by [MLP(input_size, hidden_sizes, num_classes)],
    given a batch of [b] rows of [k] features, returns [b] rows of
    [num_classes] scores when [k] is [input_size], and raises a RuntimeError
    (from its first [Linear] layer) for every other width; this for any list
    of hidden sizes, the empty one included. *)
Theorem mlp_forward_shape {A : Type} `{Scalar A} (s_exp s_log : A -> A)
    (new_linear : nat -> nat -> First.MLP.layer (A := A))
    (input_size num_classes : nat) (hidden_sizes : list nat)
    (x : tensor A) (b k : nat) :
  fresh_linear new_linear -> waveform_of b k x ->
  match First.MLP.forward s_exp s_log
          (First.MLP.init new_linear input_size hidden_sizes num_classes) x with
  | Ok out => k = input_size /\ waveform_of b num_classes out
  | Raise e => k <> input_size /\ e = RuntimeError
  end.
Proof.
  intros Hnew Hx. destruct (decide (k = input_size)) as [->|Hk].
  - destruct (init_forward s_exp s_log new_linear hidden_sizes input_size
                num_classes b x Hnew Hx) as (y & out & -> & _ & Hout & _).
    auto.
  - rewrite (init_forward_wrong_width s_exp s_log new_linear hidden_sizes
               input_size num_classes b k x Hnew (proj1 Hx) Hk).
    auto.
Qed.

Lemma zero_linear_fresh : fresh_linear zero_linear.
Proof.
  intros i o. eexists _, _. split; [reflexivity|].
  repeat split; unfold wf; cbn; rewrite length_replicate; lia.
Qed.

Lemma mlp_forward_shape_witness :
  match First.MLP.forward exp ln (First.MLP.init zero_linear 2 [3%nat] 2)
          (Tensor [1; 2]%nat [1; 2]%R) with
  | Ok out => 2%nat = 2%nat /\ waveform_of 1 2 out
  | Raise e => 2%nat <> 2%nat /\ e = RuntimeError
  end.
Proof.
  apply (mlp_forward_shape exp ln zero_linear 2 2 [3%nat]
           (Tensor [1; 2]%nat [1; 2]%R) 1 2).
  - exact zero_linear_fresh.
  - split; reflexivity.
Defined.

(** ** The width of the first layer *)

(** X20.  The [input_size] of line 125 needs a batch of at least four
    dimensions and raises [IndexError] on any other; on a four-dimensional
    batch it is the width to which the forward pass flattens every batch of
    the same example shape. *)
Theorem input_size_fits {A : Type} `{Scalar A} (example_data : tensor A) :
  match input_size example_data with
  | Ok w =>
      exists b c m t rest,
        shape example_data = b :: c :: m :: t :: rest
        /\ w = (c * m * t)%nat
        /\ forall (x : tensor A) (b' : nat),
             shape x = [b'; c; m; t] -> b' <> 0%nat ->
             NeuralNetworkSimplified.view_rows x = Ok (Tensor [b'; w] (data x))
  | Raise e => e = IndexError /\ (length (shape example_data) < 4)%nat
  end.
Proof.
  unfold input_size, torch.size.
  destruct (shape example_data) as [|b [|c [|m [|t rest]]]];
    cbn [lookup list_lookup mbind result_bind Py.bind length];
    try (split; [reflexivity | lia]).
  exists b, c, m, t, rest. split; [reflexivity|]. split; [reflexivity|].
  intros x b' Hx Hb. rewrite (view_rows_returns x b' [c; m; t] Hx Hb).
  do 2 f_equal. unfold prod_list. cbn [foldr]. do 2 f_equal. lia.
Qed.

(** ** The constructor of first.py: order *)
Lemma str_le_total : Total str_le.
Proof. intros s1 s2. apply String.leb_total. Qed.

Lemma first_labels_sorted (fs : filesystem) (root : string) (cmds : list string) :
  StronglySorted le (concat (first_labels fs root <$> enumerate cmds)).
Proof.
  induction cmds as [|c cmds IH] using rev_ind; [constructor|].
  unfold enumerate in *. rewrite imap_app, fmap_app, concat_app.
  apply StronglySorted_app_2.
  - intros x1 x2 Hx1 Hx2.
    pose proof (first_labels_range fs root cmds) as Hr.
    rewrite Forall_forall in Hr. specialize (Hr x1 Hx1).
    cbn in Hx2. rewrite app_nil_r in Hx2. unfold first_labels in Hx2.
    apply list_elem_of_fmap in Hx2 as (f & -> & _). cbn. lia.
  - exact IH.
  - cbn. rewrite app_nil_r. unfold first_labels. cbn [fst snd].
    induction (wav_files fs (path_join root c)) as [|f fsl IHf]; cbn; constructor.
    + exact IHf.
    + apply Forall_fmap, Forall_true. intros ?. cbn. lia.
Qed.

(** X23.  The constructor of first.py returns exactly when its root is a
    directory; the dataset then lists the root's entries in sorted order as
    its commands, and its clips grouped by command in that order: along the
    dataset the labels never decrease, one per collected file. *)
Theorem first_dataset_order {A : Type} `{Scalar A}
    (fs : filesystem) (root : string) (tr : option (tensor A -> tensor A)) :
  match First.SpeechCommandsDataset.init fs root tr with
  | Ok ds =>
      isdir fs root = true
      /\ Sorted str_le (First.SpeechCommandsDataset.commands ds)
      /\ (forall names, listdir fs root = Ok names ->
            First.SpeechCommandsDataset.commands ds ≡ₚ names)
      /\ StronglySorted le (First.SpeechCommandsDataset.labels ds)
      /\ length (First.SpeechCommandsDataset.labels ds)
         = First.SpeechCommandsDataset.len ds
  | Raise _ => isdir fs root = false
  end.
Proof.
  destruct (fs !! root) as [names|] eqn:Hroot.
  - rewrite (first_init_spec fs root names tr Hroot).
    cbn [First.SpeechCommandsDataset.commands First.SpeechCommandsDataset.labels].
    unfold isdir, listdir, First.SpeechCommandsDataset.len. rewrite Hroot.
    cbn [First.SpeechCommandsDataset.all_files].
    split; [reflexivity|]. split.
    { apply (Sorted_merge_sort str_le (Total0 := str_le_total)). }
    split.
    { intros ? [= <-]. apply merge_sort_Permutation. }
    split; [apply first_labels_sorted | apply first_files_labels_length].
  - unfold First.SpeechCommandsDataset.init, listdir, isdir. rewrite Hroot.
    reflexivity.
Qed.
